(** * makenoto.py: mapping Unicode scripts to Noto fonts

    A shallow embedding of [mupdf/scripts/makenoto.py] and the proofs of
    the properties its specification states.

    The script reads the [#define UCDN_SCRIPT_...] names of a header,
    drops a fixed blacklist, lists the fonts of a directory, and prints
    one [case] line per remaining script followed by two blocks of
    diagnostic comments.

    Modelling choices.
    - A Python [str] is a [string]. The model is exact on ASCII text, which
      is what the header and the font file names are: case mapping and
      white space are the ASCII ones, and strings compare code point by
      code point.
    - The header is the list of the lines that [readlines()] returns;
      the font directory is the list of the entry names that the
      [glob] module obtains from the operating system, in the order
      it obtains them. Names are matched as on POSIX systems, where
      [fnmatch] distinguishes upper and lower case.
    - The dictionary [lower] is an association list in insertion order
      (Python dictionaries iterate in insertion order, and the last loop
      of the script prints in that order).
    - Standard output is the list of the [print] calls performed, one
      constructor per call site; [render] gives the text of a line.
    - An uncaught exception ends the run: [Raised e out] keeps what had
      been printed before. *)

From Stdlib Require Import List String Ascii Bool Arith NArith Lia.
From Stdlib Require Import Sorting.Sorted Sorting.Permutation.
Import ListNotations.

Local Open Scope string_scope.
Local Open Scope list_scope.
Local Open Scope nat_scope.

(** ** Python string methods *)

Module Py.

Definition is_upper (c : ascii) : bool :=
  (65 <=? nat_of_ascii c) && (nat_of_ascii c <=? 90).

Definition is_lower (c : ascii) : bool :=
  (97 <=? nat_of_ascii c) && (nat_of_ascii c <=? 122).

Definition char_lower (c : ascii) : ascii :=
  if is_upper c then ascii_of_nat (nat_of_ascii c + 32) else c.

Definition char_upper (c : ascii) : ascii :=
  if is_lower c then ascii_of_nat (nat_of_ascii c - 32) else c.

Fixpoint str_map (f : ascii -> ascii) (s : string) : string :=
  match s with
  | EmptyString => EmptyString
  | String c r => String (f c) (str_map f r)
  end.

(** [s.lower()] *)
Definition lower (s : string) : string := str_map char_lower s.

(** [s.capitalize()]: first character upper-cased, the others lower-cased. *)
Definition capitalize (s : string) : string :=
  match s with
  | EmptyString => EmptyString
  | String c r => String (char_upper c) (lower r)
  end.

(** [s.replace(a, b)] for one-character [a] and [b]. *)
Definition replace (a b : ascii) (s : string) : string :=
  str_map (fun c => if Ascii.eqb c a then b else c) s.

(** [s.startswith(p)] *)
Definition startswith (s p : string) : bool := String.prefix p s.

(** ["".join(l)] *)
Definition join (l : list string) : string := String.concat "" l.

(** Characters on which [str.split()] cuts: tab, line feed, vertical tab,
    form feed, carriage return, the four separators 28..31 and space. *)
Definition is_space (c : ascii) : bool :=
  let n := nat_of_ascii c in
  ((9 <=? n) && (n <=? 13)) || ((28 <=? n) && (n <=? 32)).

(** [s.split()]: the maximal runs of characters that are not white space.
    [cur] is the run being read. *)
Fixpoint split_ws_from (cur : string) (s : string) : list string :=
  match s with
  | EmptyString => if String.eqb cur "" then [] else [cur]
  | String c r =>
      if is_space c
      then (if String.eqb cur "" then split_ws_from "" r
            else cur :: split_ws_from "" r)
      else split_ws_from (cur ++ String c "")%string r
  end.

Definition split_ws (s : string) : list string := split_ws_from "" s.

(** [s.split(sep)] for a one-character [sep]: the pieces between the
    separators, empty pieces included; never the empty list. *)
Fixpoint split (sep : ascii) (s : string) : list string :=
  match s with
  | EmptyString => [""]
  | String c r =>
      if Ascii.eqb c sep then "" :: split sep r
      else match split sep r with
           | p :: ps => String c p :: ps
           | [] => [String c ""]
           end
  end.

Fixpoint has_char (a : ascii) (s : string) : bool :=
  match s with
  | EmptyString => false
  | String c r => Ascii.eqb c a || has_char a r
  end.

(** [os.path.basename(p)]: what follows the last ["/"] of [p]. *)
Fixpoint basename (p : string) : string :=
  match p with
  | EmptyString => EmptyString
  | String c r =>
      if has_char "/" r then basename r
      else if Ascii.eqb c "/" then r else p
  end.

(** [x in l] on a list of strings. *)
Definition mem (x : string) (l : list string) : bool :=
  existsb (String.eqb x) l.

(** [l.remove(x)]: drops the first element equal to [x]; [None] stands for
    the [ValueError] that Python raises when there is none. *)
Fixpoint list_remove (x : string) (l : list string) : option (list string) :=
  match l with
  | [] => None
  | y :: r =>
      if String.eqb y x then Some r
      else match list_remove x r with
           | Some r' => Some (y :: r')
           | None => None
           end
  end.

(** [sorted(l)] on strings, which Python compares code point by code
    point: a stable insertion sort. *)
Fixpoint insert_sorted (x : string) (l : list string) : list string :=
  match l with
  | [] => [x]
  | y :: r => if String.leb x y then x :: l else y :: insert_sorted x r
  end.

Definition sorted (l : list string) : list string :=
  fold_right insert_sorted [] l.

End Py.

(** ** The [glob] module, for a pattern without brackets *)

Module Glob.

Inductive pat : Type :=
| Star                (* [*]: any run of characters *)
| Any                 (* [?]: exactly one character *)
| Lit (c : ascii).    (* any other character: itself *)

Definition compile_char (c : ascii) : pat :=
  if Ascii.eqb c "*" then Star else if Ascii.eqb c "?" then Any else Lit c.

Fixpoint compile (s : string) : list pat :=
  match s with
  | EmptyString => []
  | String c r => compile_char c :: compile r
  end.

(** [fnmatch.fnmatchcase]: the whole name must match the whole pattern. *)
Fixpoint fnmatch_star (rest : string -> bool) (s : string) : bool :=
  rest s || match s with
            | EmptyString => false
            | String _ r => fnmatch_star rest r
            end.

Fixpoint fnmatch (p : list pat) (s : string) : bool :=
  match p with
  | [] => String.eqb s ""
  | Star :: p' => fnmatch_star (fnmatch p') s
  | Any :: p' => match s with
                 | EmptyString => false
                 | String _ r => fnmatch p' r
                 end
  | Lit c :: p' => match s with
                   | EmptyString => false
                   | String d r => Ascii.eqb d c && fnmatch p' r
                   end
  end.

(** A name that starts with a dot is hidden: a pattern that does not
    start with a dot never selects it. *)
Definition ishidden (name : string) : bool := Py.startswith name ".".

(** [glob.glob(dir + "/" + pattern)] in a directory whose entries are
    [names]: the selected names, each joined to the directory. *)
Definition glob (dir pattern : string) (names : list string) : list string :=
  map (fun name => dir ++ "/" ++ name)%string
      (filter (fun name =>
                 (ishidden pattern || negb (ishidden name))
                 && fnmatch (compile pattern) name) names).

End Glob.

(** ** Python dictionaries with string keys and values *)

Module Dict.

(** The entries in insertion order; every key occurs once. *)
Definition t : Type := list (string * string).

Definition keys (d : t) : list string := map fst d.

(** [d[k]]; [None] stands for [KeyError]. *)
Fixpoint get (k : string) (d : t) : option string :=
  match d with
  | [] => None
  | (k', v) :: r => if String.eqb k' k then Some v else get k r
  end.

(** [k in d] *)
Definition contains (k : string) (d : t) : bool :=
  match get k d with Some _ => true | None => false end.

(** [d[k] = v]: a key already present keeps its place and takes the new
    value, a new key goes last. *)
Fixpoint set (k v : string) (d : t) : t :=
  match d with
  | [] => [(k, v)]
  | (k', v') :: r =>
      if String.eqb k' k then (k', v) :: r else (k', v') :: set k v r
  end.

(** [del d[k]] *)
Definition del (k : string) (d : t) : t :=
  filter (fun kv => negb (String.eqb (fst kv) k)) d.

End Dict.

(** ** The script *)

Definition blacklist : list string :=
  [ "UCDN_SCRIPT_UNKNOWN";
    "UCDN_SCRIPT_INHERITED";
    "UCDN_SCRIPT_COMMON";
    "UCDN_SCRIPT_LATIN";
    "UCDN_SCRIPT_GREEK";
    "UCDN_SCRIPT_CYRILLIC";
    "UCDN_SCRIPT_HIRAGANA";
    "UCDN_SCRIPT_KATAKANA";
    "UCDN_SCRIPT_BOPOMOFO";
    "UCDN_SCRIPT_HAN";
    "UCDN_SCRIPT_HANGUL";
    "UCDN_SCRIPT_BRAILLE";
    "UCDN_SCRIPT_MEROITIC_CURSIVE";
    "UCDN_SCRIPT_MEROITIC_HIEROGLYPHS";
    "UCDN_SCRIPT_SYRIAC" ].

(** The exceptions the script can raise. [list.remove] raises
    [ValueError]; indexing a list raises [IndexError], a dictionary
    [KeyError]. *)
Inductive exn : Type := IndexError | ValueError | KeyError.

(** The four [print] calls of the script. *)
Inductive printed : Type :=
| CaseReturn (us nn : string)
| CaseBreak (us : string)
| UnmappedFont (b : string)
| UnusedFontFile (b : string).

Definition render (p : printed) : string :=
  match p with
  | CaseReturn us nn => "case " ++ us ++ ": RETURN(noto_" ++ nn ++ ");"
  | CaseBreak us => "case " ++ us ++ ": break;"
  | UnmappedFont b => "// unmapped font: " ++ b
  | UnusedFontFile b => "// unused font file: " ++ b
  end%string.

Inductive result : Type :=
| Finished (out : list printed)
| Raised (e : exn) (out : list printed).

(** The text written to standard output. *)
Definition stdout (r : result) : list string :=
  match r with
  | Finished out => map render out
  | Raised _ out => map render out
  end.

(** The loop over the lines of the header. [None]: [line.split()[1]]
    raised [IndexError]. *)
Fixpoint scan_header (lines : list string) : option (list string) :=
  match lines with
  | [] => Some []
  | line :: rest =>
      if Py.startswith line "#define" then
        match nth_error (Py.split_ws line) 1 with
        | None => None
        | Some name =>
            match scan_header rest with
            | None => None
            | Some scripts =>
                Some (if Py.startswith name "UCDN_SCRIPT_"
                      then name :: scripts else scripts)
            end
        end
      else scan_header rest
  end.

(** [for s in blacklist: scripts.remove(s)] *)
Fixpoint remove_blacklist (bl scripts : list string)
  : option (list string) :=
  match bl with
  | [] => Some scripts
  | s :: bl' =>
      match Py.list_remove s scripts with
      | None => None
      | Some scripts' => remove_blacklist bl' scripts'
      end
  end.

Definition font_dir : string := "resources/fonts/noto".

(** [fonts = glob.glob("resources/fonts/noto/*.?tf")] *)
Definition glob_fonts (names : list string) : list string :=
  Glob.glob font_dir "*.?tf" names.

(** [{f.lower(): os.path.basename(f) for f in fonts}] *)
Definition make_lower (fonts : list string) : Dict.t :=
  fold_left (fun d f => Dict.set (Py.lower f) (Py.basename f) d) fonts [].

(** The variables the main loop works on. *)
Record state : Type := mkState {
  lower : Dict.t;
  unused : list string;
  out : list printed
}.

Definition print (p : printed) (st : state) : state :=
  mkState (lower st) (unused st) (out st ++ [p]).

Definition init (fonts : list string) : state :=
  let d := make_lower fonts in
  mkState d (Py.sorted (Dict.keys d)) [].

Definition symbol_of (b : string) : string :=
  Py.replace "-" "_" (Py.replace "." "_" b).

Definition casefont (us ss n : string) (st : state) : bool * state :=
  match Dict.get n (lower st) with
  | Some b =>
      let nn := symbol_of b in
      let st := print (CaseReturn us nn) st in
      (true, mkState (Dict.del n (lower st)) (unused st) (out st))
  | None => (false, st)
  end.

(** [any(casefont(us, ss, font.lower()) for font in list)]: the calls
    stop at the first one that returns [True]. *)
Fixpoint any_casefont (us ss : string) (list : list string) (st : state)
  : bool * state :=
  match list with
  | [] => (false, st)
  | font :: rest =>
      let (hit, st') := casefont us ss (Py.lower font) st in
      if hit then (true, st') else any_casefont us ss rest st'
  end.

(** ["".join([s.capitalize() for s in us.split("_")[2:]])] *)
Definition script_name (us : string) : string :=
  Py.join (map Py.capitalize (skipn 2 (Py.split "_" us))).

Definition candidates (ss : string) : list string :=
  [ "resources/fonts/noto/NotoSerif" ++ ss ++ "-Regular.otf";
    "resources/fonts/noto/NotoSans" ++ ss ++ "-Regular.otf";
    "resources/fonts/noto/NotoSerif" ++ ss ++ "-Regular.ttf";
    "resources/fonts/noto/NotoSans" ++ ss ++ "-Regular.ttf" ]%string.

(** [if font.lower() in unused: unused.remove(font.lower())] *)
Definition strip_unused (font : string) (st : state) : state :=
  if Py.mem (Py.lower font) (unused st) then
    match Py.list_remove (Py.lower font) (unused st) with
    | Some u => mkState (lower st) u (out st)
    | None => st
    end
  else st.

(** The body of [for us in scripts]. *)
Definition map_script (us : string) (st : state) : state :=
  let ss := script_name us in
  let list := candidates ss in
  let (found, st) := any_casefont us ss list st in
  let st := if found then st else print (CaseBreak us) st in
  fold_left (fun st font => strip_unused font st) list st.

Definition map_scripts (scripts : list string) (st : state) : state :=
  fold_left (fun st us => map_script us st) scripts st.

(** [for f in unused: print("// unmapped font:", lower[f])] *)
Fixpoint report_unmapped (d : Dict.t) (u : list string)
  (out : list printed) : result :=
  match u with
  | [] => Finished out
  | f :: rest =>
      match Dict.get f d with
      | Some b => report_unmapped d rest (out ++ [UnmappedFont b])
      | None => Raised KeyError out
      end
  end.

(** [for f in lower: if f not in unused: print("// unused font file:",
    lower[f])], [ks] being the keys still to visit. *)
Fixpoint report_unused (d : Dict.t) (u ks : list string)
  (out : list printed) : result :=
  match ks with
  | [] => Finished out
  | f :: rest =>
      if Py.mem f u then report_unused d u rest out
      else match Dict.get f d with
           | Some b => report_unused d u rest (out ++ [UnusedFontFile b])
           | None => Raised KeyError out
           end
  end.

Definition report (st : state) : result :=
  match report_unmapped (lower st) (unused st) (out st) with
  | Finished out' =>
      report_unused (lower st) (unused st) (Dict.keys (lower st)) out'
  | Raised e out' => Raised e out'
  end.

(** The script from the point where the header has been read:
    [scripts] are the names found, [names] the entries of the font
    directory. *)
Definition generate (scripts names : list string) : result :=
  match remove_blacklist blacklist scripts with
  | None => Raised ValueError []
  | Some scripts' =>
      report (map_scripts scripts' (init (glob_fonts names)))
  end.

(** The whole script. *)
Definition main (header names : list string) : result :=
  match scan_header header with
  | None => Raised IndexError []
  | Some scripts => generate scripts names
  end.

(** ** Notions used to state the properties *)

(** Ascending order of strings, as [sorted] understands it. *)
Definition str_le (a b : string) : Prop := String.leb a b = true.

(** The value stored under a key, [""] for a key that is absent. *)
Definition basename_of (d : Dict.t) (k : string) : string :=
  match Dict.get k d with Some b => b | None => "" end.

(** The four keys looked up for a script, in the order of the lookups. *)
Definition keys_of (us : string) : list string :=
  map Py.lower (candidates (script_name us)).

(** The first key of [l] present in [d], with the value stored there. *)
Fixpoint first_hit (d : Dict.t) (l : list string)
  : option (string * string) :=
  match l with
  | [] => None
  | n :: rest =>
      match Dict.get n d with
      | Some b => Some (n, b)
      | None => first_hit d rest
      end
  end.

Definition winner (us : string) (d : Dict.t) : option (string * string) :=
  first_hit d (keys_of us).

(** The index once the winning entry, if any, has been claimed. *)
Definition claim (w : option (string * string)) (d : Dict.t) : Dict.t :=
  match w with
  | Some (n, _) => Dict.del n d
  | None => d
  end.

(** The winning entry of each script of a run that starts with index [d]. *)
Fixpoint winners (scripts : list string) (d : Dict.t)
  : list (option (string * string)) :=
  match scripts with
  | [] => []
  | us :: rest => winner us d :: winners rest (claim (winner us d) d)
  end.

Definition claim_all (ws : list (option (string * string))) (d : Dict.t)
  : Dict.t :=
  fold_left (fun d w => claim w d) ws d.

(** The entries claimed in a run, and their keys. *)
Definition claimed (ws : list (option (string * string)))
  : list (string * string) :=
  flat_map (fun w => match w with Some e => [e] | None => [] end) ws.

Definition claimed_keys (ws : list (option (string * string)))
  : list string :=
  map fst (claimed ws).

Definition case_line (us : string) (w : option (string * string))
  : printed :=
  match w with
  | Some (_, b) => CaseReturn us (symbol_of b)
  | None => CaseBreak us
  end.

Definition case_lines (scripts : list string)
  (ws : list (option (string * string))) : list printed :=
  map (fun p => case_line (fst p) (snd p)) (combine scripts ws).

(** All the keys looked up for the scripts of a run. *)
Definition all_keys (scripts : list string) : list string :=
  flat_map keys_of scripts.

(** The keys never looked up for any script, in the order of the pool. *)
Definition unmapped_keys (scripts : list string) (d : Dict.t)
  : list string :=
  filter (fun k => negb (Py.mem k (all_keys scripts)))
         (Py.sorted (Dict.keys d)).

(** The keys looked up for some script and claimed by none, in the order
    of the index. *)
Definition unclaimed_keys (scripts : list string) (d : Dict.t)
  : list string :=
  filter (fun k => negb (Py.mem k (claimed_keys (winners scripts d)))
                   && Py.mem k (all_keys scripts))
         (Dict.keys d).

(** The parts of what was printed. *)
Definition returned_symbols (out : list printed) : list string :=
  flat_map (fun p => match p with CaseReturn _ nn => [nn] | _ => [] end) out.

Definition unmapped_fonts (out : list printed) : list string :=
  flat_map (fun p => match p with UnmappedFont b => [b] | _ => [] end) out.

Definition unused_font_files (out : list printed) : list string :=
  flat_map (fun p => match p with UnusedFontFile b => [b] | _ => [] end) out.

(** The states of the main loop of a run whose fonts are [fonts]. *)
Inductive reachable (fonts : list string) : state -> Prop :=
| reach_init : reachable fonts (init fonts)
| reach_step (st : state) (us : string) :
    reachable fonts st -> reachable fonts (map_script us st).

(** What holds of every state of the main loop. *)
Record inv (fonts : list string) (st : state) : Prop := mkInv {
  inv_keys : NoDup (Dict.keys (lower st));
  inv_sub : forall kv, In kv (lower st) -> In kv (make_lower fonts);
  inv_nodup : NoDup (unused st);
  inv_sorted : StronglySorted str_le (unused st);
  inv_unused : forall k, In k (unused st) -> In k (Dict.keys (lower st))
}.

(** ** Shapes of names *)

(** Every character of [s] satisfies [g]. *)
Fixpoint str_all (g : ascii -> bool) (s : string) : bool :=
  match s with
  | EmptyString => true
  | String c r => g c && str_all g r
  end.

(** A script name with neither a dot nor a dash. *)
Definition dot_dash_free (us : string) : bool :=
  str_all (fun c => negb (Ascii.eqb c "." || Ascii.eqb c "-")) us.

(** A character that is none of the dot, the dash and the underscore. *)
Definition plain (c : ascii) : bool :=
  negb (Ascii.eqb c "." || Ascii.eqb c "-" || Ascii.eqb c "_").

(** The name of a directory entry holds no ["/"]. *)
Definition entry_name (name : string) : bool := negb (Py.has_char "/" name).

(** The directory part of the path of every font. *)
Definition font_prefix : string := "resources/fonts/noto/".

(** The name ends in a dot, one character and ["tf"]. *)
Definition dot_x_tf (name : string) : Prop :=
  exists (pre : string) (c : ascii),
    name = (pre ++ String "." (String c "tf"))%string.

(** What a character becomes in a generated symbol. *)
Definition symbol_char (c : ascii) : ascii :=
  if Ascii.eqb c "." || Ascii.eqb c "-" then "_"%char else c.

(** ** Sample inputs *)

(** A header that defines the blacklisted scripts and two more. *)
Definition sample_header : list string :=
  map (fun s => "#define " ++ s ++ " 0")%string blacklist
  ++ ["#define UCDN_SCRIPT_ARABIC 2"; "#define UCDN_SCRIPT_THAI 38"].

Definition sample_names : list string :=
  [ "NotoSansArabic-Regular.ttf"; "NotoSerifArabic-Regular.otf";
    "NotoSansArabic-Regular.otf"; "NotoSansXyzzy-Regular.otf";
    "NotoSansThai-Regular.ttf" ].

Definition sample_scripts : list string :=
  blacklist ++ ["UCDN_SCRIPT_ARABIC"; "UCDN_SCRIPT_THAI"].

Definition sample_output : list printed :=
  [ CaseReturn "UCDN_SCRIPT_ARABIC" "NotoSerifArabic_Regular_otf";
    CaseReturn "UCDN_SCRIPT_THAI" "NotoSansThai_Regular_ttf";
    UnmappedFont "NotoSansXyzzy-Regular.otf";
    UnusedFontFile "NotoSansArabic-Regular.ttf";
    UnusedFontFile "NotoSansArabic-Regular.otf" ].

(** The state in which the main loop starts on the sample directory. *)
Definition sample_state : state := init (glob_fonts sample_names).

Definition arabic : string := "UCDN_SCRIPT_ARABIC".



(** A header with two script names that differ in a dash and a dot, and a
    directory with a font for each. *)
Definition header_dash_dot : list string :=
  map (fun s => "#define " ++ s ++ " 0")%string blacklist
  ++ ["#define UCDN_SCRIPT_A-B 1"; "#define UCDN_SCRIPT_A.B 2"].

Definition names_dash_dot : list string :=
  ["NotoSansA-B-Regular.otf"; "NotoSansA.B-Regular.otf"].

(** The same header with a second definition of a blacklisted script. *)
Definition header_latin_twice : list string :=
  sample_header ++ ["#define UCDN_SCRIPT_LATIN 1"].

(** ** Notions for the header scan and the script names *)

(** No character of [s] is white space. *)
Definition no_space (s : string) : bool :=
  str_all (fun c => negb (Py.is_space c)) s.

(** [s] without the occurrences of the character [a]. *)
Fixpoint drop_char (a : ascii) (s : string) : string :=
  match s with
  | EmptyString => EmptyString
  | String c r => if Ascii.eqb c a then drop_char a r
                  else String c (drop_char a r)
  end.

(** The script a [case] line is for; [None] for a comment. *)
Definition case_id (p : printed) : option string :=
  match p with
  | CaseReturn us _ => Some us
  | CaseBreak us => Some us
  | UnmappedFont _ => None
  | UnusedFontFile _ => None
  end.

(** The entry of the index that a font gives rise to. *)
Definition index_pair (f : string) : string * string :=
  (Py.lower f, Py.basename f).

(** * Properties *)

(** ** Lists of strings *)

Section ListFacts.

Lemma filter_id {A : Type} (f : A -> bool) (l : list A) :
  (forall y, In y l -> f y = true) -> filter f l = l.
Proof.
  intros H. rewrite (filter_ext_in f (fun _ => true) l H).
  apply filter_true.
Qed.

Lemma filter_filter {A : Type} (f g : A -> bool) (l : list A) :
  filter f (filter g l) = filter (fun x => g x && f x) l.
Proof.
  induction l as [|x r IH]; simpl; [reflexivity|].
  destruct (g x); simpl; [destruct (f x)|]; now rewrite IH.
Qed.

Lemma mem_In (x : string) (l : list string) : Py.mem x l = true <-> In x l.
Proof.
  unfold Py.mem. rewrite existsb_exists. split.
  - intros (y & Hy & E). apply String.eqb_eq in E. now subst.
  - intros H. exists x. split; [assumption | apply String.eqb_refl].
Qed.

Lemma mem_false (x : string) (l : list string) :
  Py.mem x l = false <-> ~ In x l.
Proof.
  rewrite <- mem_In. destruct (Py.mem x l); split; congruence.
Qed.

Lemma list_remove_None (x : string) (l : list string) :
  Py.list_remove x l = None <-> ~ In x l.
Proof.
  induction l as [|y r IH]; simpl.
  - tauto.
  - destruct (String.eqb_spec y x) as [E|N].
    + split; [discriminate | intros H; exfalso; apply H; now left].
    + destruct (Py.list_remove x r).
      * split; [discriminate|]. intros H. exfalso.
        assert (~ In x r) as Hr by tauto. apply IH in Hr. discriminate.
      * split; [|reflexivity]. intros _ [E|Hin]; [congruence|].
        now apply IH in Hin.
Qed.

Lemma list_remove_In (x : string) (l : list string) :
  In x l -> exists l', Py.list_remove x l = Some l'.
Proof.
  intros H. destruct (Py.list_remove x l) eqn:E; [eauto|].
  apply list_remove_None in E. contradiction.
Qed.

(** [remove] takes one occurrence of [x] away and nothing else. *)
Lemma list_remove_count (x y : string) (l l' : list string) :
  Py.list_remove x l = Some l' ->
  count_occ string_dec l' y =
    if String.eqb y x then pred (count_occ string_dec l y)
    else count_occ string_dec l y.
Proof.
  revert l'. induction l as [|z r IH]; simpl; intros l' H; [discriminate|].
  destruct (String.eqb_spec z x) as [E|N].
  - injection H as <-. subst z.
    destruct (String.eqb_spec y x) as [E|N'].
    + subst y. destruct (string_dec x x); [reflexivity | congruence].
    + destruct (string_dec x y); [congruence | reflexivity].
  - destruct (Py.list_remove x r) as [r'|] eqn:Er; [|discriminate].
    injection H as <-. specialize (IH r' eq_refl). simpl.
    destruct (string_dec z y) as [E|N'].
    + subst z. rewrite IH.
      destruct (String.eqb_spec y x); [congruence | reflexivity].
    + exact IH.
Qed.

(** On a list without repetition, [remove] is a filter. *)
Lemma list_remove_NoDup (x : string) (l l' : list string) :
  NoDup l -> Py.list_remove x l = Some l' ->
  l' = filter (fun y => negb (String.eqb y x)) l.
Proof.
  revert l'. induction l as [|z r IH]; simpl; intros l' ND H; [discriminate|].
  inversion ND as [|? ? Hz NDr]; subst.
  destruct (String.eqb_spec z x) as [E|N]; simpl.
  - injection H as <-. subst z. symmetry. apply filter_id.
    intros y Hy. destruct (String.eqb_spec y x); [congruence | reflexivity].
  - destruct (Py.list_remove x r) as [r'|] eqn:Er; [|discriminate].
    injection H as <-. f_equal. now apply IH.
Qed.

End ListFacts.

(** ** The blacklist *)

Section Blacklist.

Lemma list_remove_other (x y : string) (l l' : list string) :
  Py.list_remove x l = Some l' -> y <> x -> (In y l' <-> In y l).
Proof.
  intros H N.
  rewrite (count_occ_In string_dec l' y), (count_occ_In string_dec l y).
  rewrite (list_remove_count x y l l' H).
  destruct (String.eqb_spec y x); [contradiction | tauto].
Qed.

(** The loop fails exactly when it reaches a name that the list, as the
    earlier removals left it, does not hold. *)
Lemma remove_blacklist_None_at (bl scripts : list string) :
  remove_blacklist bl scripts = None <->
  exists pre s post sc,
    bl = pre ++ s :: post /\
    remove_blacklist pre scripts = Some sc /\ ~ In s sc.
Proof.
  revert scripts. induction bl as [|s bl IH]; intros scripts; simpl.
  - split; [discriminate|]. intros (pre & s & post & sc & E & _).
    destruct pre; discriminate.
  - destruct (Py.list_remove s scripts) as [sc|] eqn:Er.
    + rewrite IH. split.
      * intros (pre & t & post & sc' & -> & Hp & Hn).
        exists (s :: pre), t, post, sc'. simpl. rewrite Er. auto.
      * intros (pre & t & post & sc' & E & Hp & Hn).
        destruct pre as [|s' pre]; simpl in *.
        -- injection E as <- <-. injection Hp as <-.
           apply list_remove_None in Hn. congruence.
        -- injection E as <- ->. rewrite Er in Hp.
           exists pre, t, post, sc'. auto.
    + split; [|reflexivity]. intros _.
      exists [], s, bl, scripts. simpl.
      apply list_remove_None in Er. auto.
Qed.

Lemma remove_blacklist_None (bl scripts : list string) :
  NoDup bl ->
  (remove_blacklist bl scripts = None <->
   exists s, In s bl /\ ~ In s scripts).
Proof.
  intros ND. revert scripts.
  induction ND as [|s bl Hs ND IH]; intros scripts; simpl.
  - split; [discriminate | intros (s & [] & _)].
  - destruct (Py.list_remove s scripts) as [sc|] eqn:Er.
    + rewrite IH. split.
      * intros (t & Ht & Hn). exists t. split; [now right|].
        rewrite <- (list_remove_other s t scripts sc Er); [assumption|].
        congruence.
      * intros (t & [<-|Ht] & Hn).
        -- apply list_remove_None in Hn. congruence.
        -- exists t. split; [assumption|].
           rewrite (list_remove_other s t scripts sc Er); [assumption|].
           congruence.
    + split; [|reflexivity]. intros _. exists s.
      apply list_remove_None in Er. auto.
Qed.

Lemma remove_blacklist_count (bl scripts sc : list string) (y : string) :
  NoDup bl -> remove_blacklist bl scripts = Some sc ->
  count_occ string_dec sc y =
    if Py.mem y bl then pred (count_occ string_dec scripts y)
    else count_occ string_dec scripts y.
Proof.
  intros ND. revert scripts.
  induction ND as [|s bl Hs ND IH]; intros scripts; simpl.
  - intros [= <-]. reflexivity.
  - destruct (Py.list_remove s scripts) as [sc'|] eqn:Er; [|discriminate].
    intros H. rewrite (IH _ H), (list_remove_count s y scripts sc' Er).
    destruct (String.eqb_spec y s) as [->|N]; simpl.
    + apply mem_false in Hs. rewrite Hs. reflexivity.
    + reflexivity.
Qed.

Lemma blacklist_NoDup : NoDup blacklist.
Proof.
  unfold blacklist.
  repeat (constructor; [simpl; intuition discriminate|]). constructor.
Qed.

End Blacklist.

(** ** Dictionaries *)

Section DictFacts.

Lemma get_In (k v : string) (d : Dict.t) :
  Dict.get k d = Some v -> In (k, v) d.
Proof.
  induction d as [|[k' v'] r IH]; simpl; [discriminate|].
  destruct (String.eqb_spec k' k) as [->|N].
  - intros [= ->]. now left.
  - intros H. right. now apply IH.
Qed.

Lemma get_None (k : string) (d : Dict.t) :
  Dict.get k d = None <-> ~ In k (Dict.keys d).
Proof.
  induction d as [|[k' v'] r IH]; simpl; [tauto|].
  destruct (String.eqb_spec k' k) as [->|N].
  - split; [discriminate | intros H; exfalso; apply H; now left].
  - rewrite IH. tauto.
Qed.

Lemma contains_In (k : string) (d : Dict.t) :
  Dict.contains k d = true <-> In k (Dict.keys d).
Proof.
  unfold Dict.contains. destruct (Dict.get k d) eqn:E.
  - split; [|reflexivity]. intros _.
    apply get_In in E. apply (in_map fst) in E. exact E.
  - apply get_None in E. split; [discriminate | contradiction].
Qed.

Lemma In_get (k v : string) (d : Dict.t) :
  NoDup (Dict.keys d) -> In (k, v) d -> Dict.get k d = Some v.
Proof.
  induction d as [|[k' v'] r IH]; simpl; [contradiction|].
  intros ND [E|Hin]; inversion ND as [|? ? Hk NDr]; subst.
  - injection E as -> ->. now rewrite String.eqb_refl.
  - destruct (String.eqb_spec k' k) as [->|N]; [|now apply IH].
    exfalso. apply Hk. apply (in_map fst) in Hin. exact Hin.
Qed.

Lemma keys_del (n : string) (d : Dict.t) :
  Dict.keys (Dict.del n d) =
  filter (fun k => negb (String.eqb k n)) (Dict.keys d).
Proof.
  unfold Dict.keys, Dict.del.
  induction d as [|[k v] r IH]; simpl; [reflexivity|].
  destruct (String.eqb k n); simpl; now rewrite IH.
Qed.

Lemma get_del (k n : string) (d : Dict.t) :
  Dict.get k (Dict.del n d) =
  if String.eqb k n then None else Dict.get k d.
Proof.
  unfold Dict.del. induction d as [|[k' v'] r IH]; simpl.
  - now destruct (String.eqb k n).
  - destruct (String.eqb_spec k' n) as [->|N]; simpl.
    + rewrite IH. destruct (String.eqb_spec k n) as [->|N'].
      * reflexivity.
      * destruct (String.eqb_spec n k); [congruence | reflexivity].
    + rewrite IH. destruct (String.eqb_spec k' k) as [->|N'].
      * destruct (String.eqb_spec k n); [congruence | reflexivity].
      * reflexivity.
Qed.

Lemma keys_del_NoDup (n : string) (d : Dict.t) :
  NoDup (Dict.keys d) -> NoDup (Dict.keys (Dict.del n d)).
Proof. intros H. rewrite keys_del. now apply NoDup_filter. Qed.

Lemma keys_set (k v : string) (d : Dict.t) :
  Dict.keys (Dict.set k v d) =
  if Dict.contains k d then Dict.keys d else Dict.keys d ++ [k].
Proof.
  unfold Dict.contains. induction d as [|[k' v'] r IH]; simpl.
  - reflexivity.
  - destruct (String.eqb_spec k' k) as [->|N]; simpl; [reflexivity|].
    rewrite IH. now destruct (Dict.get k r).
Qed.

Lemma get_set (k' k v : string) (d : Dict.t) :
  Dict.get k' (Dict.set k v d) =
  if String.eqb k' k then Some v else Dict.get k' d.
Proof.
  induction d as [|[k0 v0] r IH]; simpl.
  - rewrite (String.eqb_sym k k'). now destruct (String.eqb k' k).
  - destruct (String.eqb_spec k0 k) as [->|N]; simpl.
    + rewrite (String.eqb_sym k k'). now destruct (String.eqb k' k).
    + rewrite IH. destruct (String.eqb_spec k0 k') as [->|N'].
      * destruct (String.eqb_spec k' k); [congruence | reflexivity].
      * reflexivity.
Qed.

Lemma keys_set_NoDup (k v : string) (d : Dict.t) :
  NoDup (Dict.keys d) -> NoDup (Dict.keys (Dict.set k v d)).
Proof.
  intros ND. rewrite keys_set.
  destruct (Dict.contains k d) eqn:E; [assumption|].
  apply NoDup_app; [assumption | repeat constructor; simpl; tauto |].
  intros x Hx [<-|[]]. apply contains_In in Hx. congruence.
Qed.

End DictFacts.

(** ** The index built from the fonts *)

Section Index.

Lemma index_fold (fonts : list string) (d : Dict.t) :
  NoDup (Dict.keys d) ->
  let d' :=
    fold_left (fun d f => Dict.set (Py.lower f) (Py.basename f) d) fonts d in
  NoDup (Dict.keys d') /\
  (forall k v, Dict.get k d' = Some v ->
     Dict.get k d = Some v \/
     exists f, In f fonts /\ Py.lower f = k /\ Py.basename f = v) /\
  (forall k, In k (Dict.keys d) \/ (exists f, In f fonts /\ Py.lower f = k) ->
     In k (Dict.keys d')).
Proof.
  revert d. induction fonts as [|f fonts IH]; intros d ND; simpl.
  - repeat split; [assumption | auto |].
    intros k [H|(f & [] & _)]. exact H.
  - destruct (IH (Dict.set (Py.lower f) (Py.basename f) d)
                 (keys_set_NoDup _ _ _ ND)) as (H1 & H2 & H3).
    repeat split; [exact H1 | |].
    + intros k v Hg. destruct (H2 k v Hg) as [Hs|(g & Hg1 & Hg2)].
      * rewrite get_set in Hs.
        destruct (String.eqb_spec k (Py.lower f)) as [->|N].
        -- injection Hs as <-. right. exists f. auto.
        -- now left.
      * right. exists g. tauto.
    + intros k Hk. apply H3.
      destruct Hk as [Hk|(g & [<-|Hg] & <-)].
      * left. apply contains_In. unfold Dict.contains.
        rewrite get_set. destruct (String.eqb k (Py.lower f)); [reflexivity|].
        apply contains_In in Hk. exact Hk.
      * left. apply contains_In. unfold Dict.contains.
        rewrite get_set, String.eqb_refl. reflexivity.
      * right. exists g. auto.
Qed.

Lemma make_lower_NoDup (fonts : list string) :
  NoDup (Dict.keys (make_lower fonts)).
Proof. apply (index_fold fonts []). constructor. Qed.

(** A value of the index is the base name of a font whose lower-cased
    path is the key. *)
Lemma make_lower_get (fonts : list string) (k v : string) :
  Dict.get k (make_lower fonts) = Some v ->
  exists f, In f fonts /\ Py.lower f = k /\ Py.basename f = v.
Proof.
  intros H. destruct (index_fold fonts [] (NoDup_nil _)) as (_ & H2 & _).
  destruct (H2 k v H) as [Hn|Hf]; [discriminate | exact Hf].
Qed.

Lemma make_lower_keys (fonts : list string) (k : string) :
  In k (Dict.keys (make_lower fonts)) <->
  exists f, In f fonts /\ Py.lower f = k.
Proof.
  split.
  - intros H. apply contains_In in H. unfold Dict.contains in H.
    destruct (Dict.get k (make_lower fonts)) as [v|] eqn:E; [|discriminate].
    destruct (make_lower_get fonts k v E) as (f & Hf & Hl & _). eauto.
  - intros H. destruct (index_fold fonts [] (NoDup_nil _)) as (_ & _ & H3).
    apply H3. now right.
Qed.

End Index.

(** ** [sorted] *)

Section Sorting.

Lemma str_le_trans (a b c : string) : str_le a b -> str_le b c -> str_le a c.
Proof.
  unfold str_le, String.leb. revert b c.
  induction a as [|x a IH]; intros [|y b] [|z c]; simpl; try easy.
  unfold Ascii.compare.
  destruct (N.compare_spec (N_of_ascii x) (N_of_ascii y)) as [E1|L1|G1];
    destruct (N.compare_spec (N_of_ascii y) (N_of_ascii z)) as [E2|L2|G2];
    destruct (N.compare_spec (N_of_ascii x) (N_of_ascii z)) as [E3|L3|G3];
    try easy; try lia.
  apply IH.
Qed.

Lemma insert_sorted_perm (x : string) (l : list string) :
  Permutation (Py.insert_sorted x l) (x :: l).
Proof.
  induction l as [|y r IH]; simpl; [reflexivity|].
  destruct (String.leb x y); [reflexivity|].
  rewrite IH. apply perm_swap.
Qed.

Lemma sorted_perm (l : list string) : Permutation (Py.sorted l) l.
Proof.
  induction l as [|x r IH]; simpl; [reflexivity|].
  rewrite insert_sorted_perm. now constructor.
Qed.

Lemma insert_sorted_sorted (x : string) (l : list string) :
  StronglySorted str_le l -> StronglySorted str_le (Py.insert_sorted x l).
Proof.
  induction 1 as [|y r Hr IH Hy]; simpl.
  - repeat constructor.
  - destruct (String.leb x y) eqn:E.
    + constructor; [now constructor|]. constructor; [exact E|].
      eapply Forall_impl; [|exact Hy].
      intros z Hz. now apply (str_le_trans x y z).
    + constructor; [exact IH|].
      apply (Permutation_Forall (x := x :: r)).
      * symmetry. apply insert_sorted_perm.
      * constructor; [|exact Hy].
        destruct (String.leb_total x y) as [H|H]; [congruence | exact H].
Qed.

Lemma sorted_sorted (l : list string) : StronglySorted str_le (Py.sorted l).
Proof.
  induction l as [|x r IH]; simpl; [constructor|].
  now apply insert_sorted_sorted.
Qed.

Lemma filter_sorted (f : string -> bool) (l : list string) :
  StronglySorted str_le l -> StronglySorted str_le (filter f l).
Proof.
  induction 1 as [|y r Hr IH Hy]; simpl; [constructor|].
  destruct (f y); [|exact IH].
  constructor; [exact IH|].
  apply Forall_forall. intros z Hz. apply filter_In in Hz.
  rewrite Forall_forall in Hy. now apply Hy.
Qed.

End Sorting.

(** ** One turn of the main loop *)

Section Step.

Lemma state_eta (st : state) : mkState (lower st) (unused st) (out st) = st.
Proof. now destruct st. Qed.

(** Where [first_hit] stops. *)
Lemma first_hit_Some (d : Dict.t) (l : list string) (n b : string) :
  first_hit d l = Some (n, b) <->
  exists l1 l2, l = l1 ++ n :: l2 /\
    (forall m, In m l1 -> Dict.contains m d = false) /\
    Dict.get n d = Some b.
Proof.
  induction l as [|m r IH]; simpl.
  - split; [discriminate|]. intros (l1 & l2 & E & _). destruct l1; discriminate.
  - destruct (Dict.get m d) as [v|] eqn:Em.
    + split.
      * intros [= -> ->]. exists [], r. simpl. tauto.
      * intros (l1 & l2 & E & Hl1 & Hg). destruct l1 as [|m' l1]; simpl in E.
        -- injection E as -> ->. congruence.
        -- injection E as <- ->. specialize (Hl1 m (or_introl eq_refl)).
           unfold Dict.contains in Hl1. rewrite Em in Hl1. discriminate.
    + rewrite IH. split.
      * intros (l1 & l2 & -> & Hl1 & Hg). exists (m :: l1), l2.
        simpl. repeat split; [|exact Hg].
        intros m' [<-|H]; [|now apply Hl1].
        unfold Dict.contains. now rewrite Em.
      * intros (l1 & l2 & E & Hl1 & Hg). destruct l1 as [|m' l1]; simpl in E.
        -- injection E as -> ->. congruence.
        -- injection E as <- ->. exists l1, l2. repeat split; [|exact Hg].
           intros m' H. apply Hl1. now right.
Qed.

Lemma first_hit_None (d : Dict.t) (l : list string) :
  first_hit d l = None <-> forall m, In m l -> Dict.contains m d = false.
Proof.
  unfold Dict.contains. induction l as [|m r IH]; simpl.
  - split; [intros _ m [] | reflexivity].
  - destruct (Dict.get m d) eqn:Em.
    + split; [discriminate|]. intros H.
      specialize (H m (or_introl eq_refl)). rewrite Em in H. discriminate.
    + rewrite IH. split.
      * intros H m' [<-|Hm]; [now rewrite Em | now apply H].
      * intros H m' Hm. apply H. now right.
Qed.

Lemma first_hit_In (d : Dict.t) (l : list string) (n b : string) :
  first_hit d l = Some (n, b) -> In n l /\ Dict.get n d = Some b.
Proof.
  intros H. apply first_hit_Some in H.
  destruct H as (l1 & l2 & -> & _ & Hg). split; [|exact Hg].
  apply in_elt.
Qed.

(** The lookups of [any] stop at the first hit. *)
Lemma any_casefont_spec (us ss : string) (l : list string) (st : state) :
  any_casefont us ss l st =
  match first_hit (lower st) (map Py.lower l) with
  | Some (n, b) =>
      (true, mkState (Dict.del n (lower st)) (unused st)
                     (out st ++ [CaseReturn us (symbol_of b)]))
  | None => (false, st)
  end.
Proof.
  induction l as [|font r IH]; simpl; [reflexivity|].
  unfold casefont.
  destruct (Dict.get (Py.lower font) (lower st)); simpl; [reflexivity|].
  exact IH.
Qed.

Lemma strip_unused_spec (font : string) (st : state) :
  NoDup (unused st) ->
  strip_unused font st =
  mkState (lower st)
          (filter (fun k => negb (String.eqb k (Py.lower font))) (unused st))
          (out st).
Proof.
  intros ND. unfold strip_unused.
  destruct (Py.mem (Py.lower font) (unused st)) eqn:Em.
  - apply mem_In, list_remove_In in Em. destruct Em as (u & Eu).
    rewrite Eu. now rewrite (list_remove_NoDup _ _ _ ND Eu).
  - apply mem_false in Em. rewrite filter_id; [now rewrite state_eta|].
    intros y Hy. destruct (String.eqb_spec y (Py.lower font)); [|reflexivity].
    congruence.
Qed.

Lemma strip_all_spec (l : list string) (st : state) :
  NoDup (unused st) ->
  fold_left (fun st font => strip_unused font st) l st =
  mkState (lower st)
          (filter (fun k => negb (Py.mem k (map Py.lower l))) (unused st))
          (out st).
Proof.
  revert st. induction l as [|font r IH]; intros st ND; simpl.
  - rewrite filter_id; [now rewrite state_eta | reflexivity].
  - rewrite (strip_unused_spec font st ND), IH; simpl.
    + f_equal. rewrite filter_filter. apply filter_ext. intros k.
      now rewrite negb_orb.
    + now apply NoDup_filter.
Qed.

(** The whole body: the first key present wins, its entry leaves the index,
    one line is printed, and the four keys leave the unused pool. *)
Lemma map_script_spec (us : string) (st : state) :
  NoDup (unused st) ->
  map_script us st =
  mkState (claim (winner us (lower st)) (lower st))
          (filter (fun k => negb (Py.mem k (keys_of us))) (unused st))
          (out st ++ [case_line us (winner us (lower st))]).
Proof.
  intros ND. unfold map_script, winner, keys_of.
  rewrite any_casefont_spec.
  destruct (first_hit (lower st) (map Py.lower (candidates (script_name us))))
    as [[n b]|]; rewrite strip_all_spec by exact ND; reflexivity.
Qed.

Lemma map_scripts_spec (scripts : list string) (st : state) :
  NoDup (unused st) ->
  map_scripts scripts st =
  mkState (claim_all (winners scripts (lower st)) (lower st))
          (filter (fun k => negb (Py.mem k (all_keys scripts))) (unused st))
          (out st ++ case_lines scripts (winners scripts (lower st))).
Proof.
  unfold map_scripts, claim_all, case_lines, all_keys.
  revert st. induction scripts as [|us r IH]; intros st ND;
    cbn [fold_left winners combine map flat_map].
  - rewrite app_nil_r, filter_id; [now rewrite state_eta | reflexivity].
  - rewrite (map_script_spec us st ND), IH;
      cbn [lower unused out fst snd].
    + f_equal.
      * rewrite filter_filter. apply filter_ext. intros k.
        unfold Py.mem. now rewrite existsb_app, negb_orb.
      * now rewrite <- app_assoc.
    + now apply NoDup_filter.
Qed.

End Step.

(** ** The invariant of the main loop *)

Section Invariant.

Variable fonts : list string.

Lemma inv_init : inv fonts (init fonts).
Proof.
  unfold init. constructor; simpl.
  - apply make_lower_NoDup.
  - auto.
  - apply (Permutation_NoDup (l := Dict.keys (make_lower fonts))).
    + symmetry. apply sorted_perm.
    + apply make_lower_NoDup.
  - apply sorted_sorted.
  - intros k Hk. apply (Permutation_in k (sorted_perm _)). exact Hk.
Qed.

Lemma claim_sub (w : option (string * string)) (d : Dict.t) kv :
  In kv (claim w d) -> In kv d.
Proof.
  destruct w as [[n b]|]; simpl; [|auto].
  unfold Dict.del. rewrite filter_In. tauto.
Qed.

Lemma winner_In (us : string) (d : Dict.t) (n b : string) :
  winner us d = Some (n, b) -> In n (keys_of us) /\ Dict.get n d = Some b.
Proof. apply first_hit_In. Qed.

Lemma inv_step (us : string) (st : state) :
  inv fonts st -> inv fonts (map_script us st).
Proof.
  intros [Hk Hs Hn Ho Hu]. rewrite (map_script_spec us st Hn).
  constructor; cbn [lower unused out].
  - destruct (winner us (lower st)) as [[n b]|]; simpl; [|exact Hk].
    now apply keys_del_NoDup.
  - intros kv H. apply Hs. eapply claim_sub. exact H.
  - now apply NoDup_filter.
  - now apply filter_sorted.
  - intros k H. apply filter_In in H. destruct H as [Hin Hm].
    apply negb_true_iff, mem_false in Hm. specialize (Hu k Hin).
    destruct (winner us (lower st)) as [[n b]|] eqn:Ew; simpl; [|exact Hu].
    apply winner_In in Ew. rewrite keys_del. apply filter_In.
    split; [exact Hu|].
    destruct (String.eqb_spec k n) as [->|N]; [tauto | reflexivity].
Qed.

Lemma reachable_inv (st : state) : reachable fonts st -> inv fonts st.
Proof.
  induction 1 as [|st us _ IH]; [apply inv_init | now apply inv_step].
Qed.

Lemma reachable_map_scripts (scripts : list string) (st : state) :
  reachable fonts st -> reachable fonts (map_scripts scripts st).
Proof.
  unfold map_scripts. revert st.
  induction scripts as [|us r IH]; intros st H; simpl; [exact H|].
  apply IH. now constructor.
Qed.

End Invariant.

(** ** The two reports *)

Section Report.

Lemma report_unmapped_spec (d : Dict.t) (u : list string)
  (out : list printed) :
  (forall k, In k u -> In k (Dict.keys d)) ->
  report_unmapped d u out =
  Finished (out ++ map (fun k => UnmappedFont (basename_of d k)) u).
Proof.
  revert out. induction u as [|f r IH]; intros out H; simpl.
  - now rewrite app_nil_r.
  - unfold basename_of at 1.
    destruct (Dict.get f d) as [b|] eqn:E.
    + rewrite IH by (intros k Hk; apply H; now right).
      now rewrite <- app_assoc.
    + apply get_None in E. exfalso. apply E, H. now left.
Qed.

Lemma report_unused_spec (d : Dict.t) (u ks : list string)
  (out : list printed) :
  (forall k, In k ks -> In k (Dict.keys d)) ->
  report_unused d u ks out =
  Finished (out ++ map (fun k => UnusedFontFile (basename_of d k))
                       (filter (fun k => negb (Py.mem k u)) ks)).
Proof.
  revert out. induction ks as [|f r IH]; intros out H; simpl.
  - now rewrite app_nil_r.
  - assert (forall k, In k r -> In k (Dict.keys d)) as Hr
        by (intros k Hk; apply H; now right).
    destruct (Py.mem f u); simpl; [now apply IH|].
    unfold basename_of at 1.
    destruct (Dict.get f d) as [b|] eqn:E.
    + rewrite IH by exact Hr. now rewrite <- app_assoc.
    + apply get_None in E. exfalso. apply E, H. now left.
Qed.

Lemma report_spec (st : state) :
  (forall k, In k (unused st) -> In k (Dict.keys (lower st))) ->
  report st =
  Finished (out st
            ++ map (fun k => UnmappedFont (basename_of (lower st) k))
                   (unused st)
            ++ map (fun k => UnusedFontFile (basename_of (lower st) k))
                   (filter (fun k => negb (Py.mem k (unused st)))
                           (Dict.keys (lower st)))).
Proof.
  intros H. unfold report.
  rewrite (report_unmapped_spec _ _ _ H).
  rewrite report_unused_spec by auto. now rewrite <- app_assoc.
Qed.

End Report.

(** ** A whole run *)

Section Run.

Lemma get_filter (p : string -> bool) (k : string) (d : Dict.t) :
  Dict.get k (filter (fun kv => p (fst kv)) d) =
  if p k then Dict.get k d else None.
Proof.
  induction d as [|[k' v'] r IH]; simpl.
  - now destruct (p k).
  - destruct (p k') eqn:Ep; simpl.
    + destruct (String.eqb_spec k' k) as [->|N]; [now rewrite Ep | exact IH].
    + rewrite IH. destruct (String.eqb_spec k' k) as [->|N]; [|reflexivity].
      now rewrite Ep.
Qed.

Lemma keys_filter (p : string -> bool) (d : Dict.t) :
  Dict.keys (filter (fun kv => p (fst kv)) d) = filter p (Dict.keys d).
Proof.
  unfold Dict.keys. induction d as [|[k v] r IH]; simpl; [reflexivity|].
  destruct (p k); simpl; now rewrite IH.
Qed.

(** Claiming entries only ever filters the index. *)
Lemma claim_all_filter (ws : list (option (string * string))) (d : Dict.t) :
  claim_all ws d =
  filter (fun kv => negb (Py.mem (fst kv) (claimed_keys ws))) d.
Proof.
  unfold claim_all, claimed_keys, claimed. revert d.
  induction ws as [|[[n b]|] ws IH]; intros d; simpl.
  - symmetry. now apply filter_id.
  - rewrite IH. unfold Dict.del. rewrite filter_filter.
    apply filter_ext. intros [k v]. simpl.
    rewrite negb_orb. reflexivity.
  - apply IH.
Qed.

(** A claimed entry was in the index, under one of the keys of a script. *)
Lemma claimed_get (scripts : list string) (d : Dict.t) (n b : string) :
  In (n, b) (claimed (winners scripts d)) ->
  Dict.get n d = Some b /\ exists us, In us scripts /\ In n (keys_of us).
Proof.
  unfold claimed. revert d.
  induction scripts as [|us r IH]; intros d; simpl; [contradiction|].
  destruct (winner us d) as [[n' b']|] eqn:Ew; simpl.
  - intros [E|H].
    + injection E as -> ->. apply winner_In in Ew. split; [tauto|].
      exists us. tauto.
    + destruct (IH _ H) as (Hg & us' & Hus & Hk).
      rewrite get_del in Hg. destruct (String.eqb n n'); [discriminate|].
      split; [exact Hg|]. exists us'. tauto.
  - intros H. destruct (IH _ H) as (Hg & us' & Hus & Hk).
    split; [exact Hg|]. exists us'. tauto.
Qed.

Lemma claimed_keys_all (scripts : list string) (d : Dict.t) (k : string) :
  In k (claimed_keys (winners scripts d)) -> In k (all_keys scripts).
Proof.
  unfold claimed_keys, all_keys. intros H. apply in_map_iff in H.
  destruct H as ([n b] & <- & H). apply claimed_get in H.
  destruct H as (_ & us & Hus & Hk). apply in_flat_map. eauto.
Qed.

(** No key is claimed twice. *)
Lemma claimed_keys_NoDup (scripts : list string) (d : Dict.t) :
  NoDup (claimed_keys (winners scripts d)).
Proof.
  unfold claimed_keys, claimed. revert d.
  induction scripts as [|us r IH]; intros d; simpl; [constructor|].
  destruct (winner us d) as [[n b]|] eqn:Ew; simpl; [|apply IH].
  constructor; [|apply IH].
  intros H. apply in_map_iff in H. destruct H as ([n' b'] & E & H).
  simpl in E. subst n'. apply claimed_get in H. destruct H as (Hg & _).
  rewrite get_del, String.eqb_refl in Hg. discriminate.
Qed.

Lemma winners_length (scripts : list string) (d : Dict.t) :
  List.length (winners scripts d) = List.length scripts.
Proof.
  revert d. induction scripts as [|us r IH]; intros d; simpl; auto.
Qed.

Lemma case_lines_returned (scripts : list string) (d : Dict.t) :
  returned_symbols (case_lines scripts (winners scripts d)) =
  map (fun e => symbol_of (snd e)) (claimed (winners scripts d)).
Proof.
  unfold returned_symbols, case_lines, claimed. revert d.
  induction scripts as [|us r IH]; intros d; simpl; [reflexivity|].
  destruct (winner us d) as [[n b]|]; simpl; now rewrite IH.
Qed.

Lemma case_lines_no_comment (scripts : list string)
  (ws : list (option (string * string))) :
  unmapped_fonts (case_lines scripts ws) = [] /\
  unused_font_files (case_lines scripts ws) = [].
Proof.
  unfold unmapped_fonts, unused_font_files, case_lines. revert ws.
  induction scripts as [|us r IH]; intros ws; simpl; [tauto|].
  destruct ws as [|[[n b]|] ws]; simpl; auto.
Qed.

(** What a run prints once the blacklist has been removed: the [case]
    lines, then the unmapped fonts, then the unused font files. *)
Lemma generate_spec (scripts sc names : list string) :
  remove_blacklist blacklist scripts = Some sc ->
  let d := make_lower (glob_fonts names) in
  generate scripts names =
  Finished (case_lines sc (winners sc d)
            ++ map (fun k => UnmappedFont (basename_of d k))
                   (unmapped_keys sc d)
            ++ map (fun k => UnusedFontFile (basename_of d k))
                   (unclaimed_keys sc d)).
Proof.
  intros Hb d. unfold generate. rewrite Hb.
  pose proof (inv_init (glob_fonts names)) as I0.
  pose proof (reachable_inv _ _
    (reachable_map_scripts (glob_fonts names) sc _ (reach_init _))) as I.
  rewrite (report_spec _ (inv_unused _ _ I)).
  rewrite (map_scripts_spec sc _ (inv_nodup _ _ I0)).
  cbn [lower unused out init]. fold d. rewrite claim_all_filter.
  set (ck := claimed_keys (winners sc d)).
  set (u := filter _ (Py.sorted (Dict.keys d))).
  change u with (unmapped_keys sc d). simpl app. do 3 f_equal.
  - apply map_ext_in. intros k Hk. unfold basename_of.
    rewrite (get_filter (fun k => negb (Py.mem k ck))).
    destruct (Py.mem k ck) eqn:Em; [|reflexivity]. exfalso.
    apply mem_In, claimed_keys_all in Em.
    apply filter_In in Hk. destruct Hk as [_ Hk].
    apply negb_true_iff, mem_false in Hk. contradiction.
  - rewrite (keys_filter (fun k => negb (Py.mem k ck))), filter_filter.
    transitivity
      (map (fun k => UnusedFontFile (basename_of d k))
           (filter (fun k => negb (Py.mem k ck)
                             && negb (Py.mem k (unmapped_keys sc d)))
                   (Dict.keys d))).
    + apply map_ext_in. intros k Hk. unfold basename_of.
      rewrite (get_filter (fun k => negb (Py.mem k ck))).
      apply filter_In in Hk. destruct Hk as [_ Hk].
      apply andb_true_iff in Hk. destruct Hk as [Hk _]. now rewrite Hk.
    + f_equal. unfold unclaimed_keys. fold ck. apply filter_ext_in.
      intros k Hk. f_equal.
      destruct (Py.mem k (all_keys sc)) eqn:Ea.
      * apply negb_true_iff, mem_false. unfold unmapped_keys.
        rewrite filter_In, Ea. simpl. intros [_ H]. discriminate.
      * apply negb_false_iff, mem_In. unfold unmapped_keys.
        rewrite filter_In, Ea. split; [|reflexivity].
        apply (Permutation_in k (Permutation_sym (sorted_perm _))). exact Hk.
Qed.

End Run.

(** ** Reading the output back *)

Section Output.

Lemma strip_unused_lower_out (font : string) (st : state) :
  lower (strip_unused font st) = lower st /\
  out (strip_unused font st) = out st.
Proof.
  unfold strip_unused. destruct (Py.mem _ _); [|tauto].
  destruct (Py.list_remove _ _); simpl; tauto.
Qed.

Lemma strip_all_lower_out (l : list string) (st : state) :
  lower (fold_left (fun st font => strip_unused font st) l st) = lower st /\
  out (fold_left (fun st font => strip_unused font st) l st) = out st.
Proof.
  revert st. induction l as [|font r IH]; intros st; simpl; [tauto|].
  destruct (IH (strip_unused font st)) as [-> ->].
  apply strip_unused_lower_out.
Qed.

(** The line printed and the entry claimed do not depend on the pool. *)
Lemma map_script_out_lower (us : string) (st : state) :
  out (map_script us st) = out st ++ [case_line us (winner us (lower st))] /\
  lower (map_script us st) = claim (winner us (lower st)) (lower st).
Proof.
  unfold map_script, winner, keys_of. rewrite any_casefont_spec.
  destruct (first_hit (lower st) (map Py.lower (candidates (script_name us))))
    as [[n b]|];
    match goal with
    | |- context [fold_left _ ?l ?s] =>
        destruct (strip_all_lower_out l s) as [-> ->]
    end; simpl; tauto.
Qed.

Lemma unmapped_fonts_app (a b : list printed) :
  unmapped_fonts (a ++ b) = unmapped_fonts a ++ unmapped_fonts b.
Proof. apply flat_map_app. Qed.

Lemma unused_font_files_app (a b : list printed) :
  unused_font_files (a ++ b) = unused_font_files a ++ unused_font_files b.
Proof. apply flat_map_app. Qed.

Lemma returned_symbols_app (a b : list printed) :
  returned_symbols (a ++ b) = returned_symbols a ++ returned_symbols b.
Proof. apply flat_map_app. Qed.

Lemma comments_read_back (f g : string -> string) (l1 l2 : list string) :
  let o := map (fun k => UnmappedFont (f k)) l1
           ++ map (fun k => UnusedFontFile (g k)) l2 in
  unmapped_fonts o = map f l1 /\
  unused_font_files o = map g l2 /\
  returned_symbols o = [].
Proof.
  simpl. rewrite unmapped_fonts_app, unused_font_files_app,
    returned_symbols_app.
  unfold unmapped_fonts, unused_font_files, returned_symbols.
  assert (forall h : string -> string, forall l,
            flat_map (fun p => match p with UnmappedFont b => [b] | _ => [] end)
                     (map (fun k => UnmappedFont (h k)) l) = map h l) as A
      by (intros h l; induction l; simpl; congruence).
  assert (forall h : string -> string, forall l,
            flat_map (fun p => match p with UnusedFontFile b => [b] | _ => [] end)
                     (map (fun k => UnusedFontFile (h k)) l) = map h l) as B
      by (intros h l; induction l; simpl; congruence).
  rewrite A, B.
  repeat split.
  - replace (flat_map _ (map (fun k => UnusedFontFile (g k)) l2))
      with (@nil string) by (induction l2; simpl; congruence).
    apply app_nil_r.
  - replace (flat_map _ (map (fun k => UnmappedFont (f k)) l1))
      with (@nil string) by (induction l1; simpl; congruence).
    reflexivity.
  - replace (flat_map _ (map (fun k => UnmappedFont (f k)) l1))
      with (@nil string) by (induction l1; simpl; congruence).
    replace (flat_map _ (map (fun k => UnusedFontFile (g k)) l2))
      with (@nil string) by (induction l2; simpl; congruence).
    reflexivity.
Qed.

(** A run that finishes has read the header, removed the blacklist, and
    printed the three blocks. *)
Lemma main_Finished (header names : list string) (o : list printed) :
  main header names = Finished o ->
  exists scripts sc,
    scan_header header = Some scripts /\
    remove_blacklist blacklist scripts = Some sc /\
    let d := make_lower (glob_fonts names) in
    o = case_lines sc (winners sc d)
        ++ map (fun k => UnmappedFont (basename_of d k)) (unmapped_keys sc d)
        ++ map (fun k => UnusedFontFile (basename_of d k))
               (unclaimed_keys sc d).
Proof.
  unfold main. destruct (scan_header header) as [scripts|]; [|discriminate].
  intros H. exists scripts.
  destruct (remove_blacklist blacklist scripts) as [sc|] eqn:Eb.
  - exists sc. rewrite (generate_spec scripts sc names Eb) in H.
    injection H as <-. auto.
  - unfold generate in H. rewrite Eb in H. discriminate.
Qed.

Lemma main_blocks (header names : list string) (o : list printed) :
  main header names = Finished o ->
  exists scripts sc,
    scan_header header = Some scripts /\
    remove_blacklist blacklist scripts = Some sc /\
    let d := make_lower (glob_fonts names) in
    returned_symbols o =
      map (fun e => symbol_of (snd e)) (claimed (winners sc d)) /\
    unmapped_fonts o = map (basename_of d) (unmapped_keys sc d) /\
    unused_font_files o = map (basename_of d) (unclaimed_keys sc d).
Proof.
  intros H. destruct (main_Finished _ _ _ H) as (scripts & sc & Hs & Hb & E).
  exists scripts, sc. split; [exact Hs|]. split; [exact Hb|].
  cbv zeta in E |- *. set (d := make_lower (glob_fonts names)) in *.
  destruct (comments_read_back (basename_of d) (basename_of d)
              (unmapped_keys sc d) (unclaimed_keys sc d)) as (A & B & C).
  destruct (case_lines_no_comment sc (winners sc d)) as (A' & B').
  rewrite E, returned_symbols_app, unmapped_fonts_app, unused_font_files_app.
  rewrite A, B, C, A', B', case_lines_returned, app_nil_r. auto.
Qed.

End Output.

(** ** Strings *)

Section Strings.

Lemma str_map_app (f : ascii -> ascii) (a b : string) :
  Py.str_map f (a ++ b) = (Py.str_map f a ++ Py.str_map f b)%string.
Proof. induction a as [|c a IH]; simpl; [reflexivity | now rewrite IH]. Qed.

Lemma str_map_map (f g : ascii -> ascii) (s : string) :
  Py.str_map f (Py.str_map g s) = Py.str_map (fun c => f (g c)) s.
Proof. induction s as [|c s IH]; simpl; [reflexivity | now rewrite IH]. Qed.

Lemma str_map_ext (f g : ascii -> ascii) (s : string) :
  (forall c, f c = g c) -> Py.str_map f s = Py.str_map g s.
Proof.
  intros H. induction s as [|c s IH]; simpl; [reflexivity|].
  now rewrite H, IH.
Qed.

Lemma str_map_id (f : ascii -> ascii) (g : ascii -> bool) (s : string) :
  (forall c, g c = true -> f c = c) -> str_all g s = true ->
  Py.str_map f s = s.
Proof.
  intros H. induction s as [|c s IH]; simpl; [reflexivity|].
  intros A. apply andb_true_iff in A. destruct A as [A1 A2].
  now rewrite (H c A1), (IH A2).
Qed.

Lemma lower_app (a b : string) :
  Py.lower (a ++ b) = (Py.lower a ++ Py.lower b)%string.
Proof. apply str_map_app. Qed.

Lemma append_inv_head (a b c : string) :
  (a ++ b)%string = (a ++ c)%string -> b = c.
Proof. induction a as [|x a IH]; simpl; [auto|]. intros [= H]. auto. Qed.

Lemma append_assoc (a b c : string) :
  ((a ++ b) ++ c)%string = (a ++ (b ++ c))%string.
Proof. induction a as [|x a IH]; simpl; [reflexivity | now rewrite IH]. Qed.

Lemma str_all_app (g : ascii -> bool) (a b : string) :
  str_all g (a ++ b) = str_all g a && str_all g b.
Proof.
  induction a as [|c a IH]; simpl; [reflexivity|].
  now rewrite IH, andb_assoc.
Qed.

Lemma str_all_impl (g h : ascii -> bool) (s : string) :
  (forall c, g c = true -> h c = true) ->
  str_all g s = true -> str_all h s = true.
Proof.
  intros H. induction s as [|c s IH]; simpl; [reflexivity|].
  intros A. apply andb_true_iff in A. destruct A as [A1 A2].
  now rewrite (H c A1), (IH A2).
Qed.

Lemma str_all_map (g : ascii -> bool) (f : ascii -> ascii) (s : string) :
  str_all g (Py.str_map f s) = str_all (fun c => g (f c)) s.
Proof. induction s as [|c s IH]; simpl; [reflexivity | now rewrite IH]. Qed.

Lemma has_char_all (a : ascii) (s : string) :
  Py.has_char a s = negb (str_all (fun c => negb (Ascii.eqb c a)) s).
Proof.
  induction s as [|c s IH]; simpl; [reflexivity|].
  rewrite IH. now destruct (Ascii.eqb c a).
Qed.

(** Facts on single characters, by inspection of the 256 of them. *)
Ltac each_char c :=
  destruct c as [[] [] [] [] [] [] [] []]; vm_compute; try reflexivity;
  try discriminate; auto.


Lemma plain_lower (c : ascii) : plain c = true -> plain (Py.char_lower c) = true.
Proof. each_char c. Qed.

Lemma plain_upper (c : ascii) : plain c = true -> plain (Py.char_upper c) = true.
Proof. each_char c. Qed.

Lemma symbol_char_lower (c : ascii) :
  Py.char_lower (symbol_char c) = symbol_char (Py.char_lower c).
Proof. each_char c. Qed.

Lemma symbol_char_plain (c : ascii) : plain c = true -> symbol_char c = c.
Proof. each_char c. Qed.

Lemma symbol_char_replace (c : ascii) :
  (if Ascii.eqb (if Ascii.eqb c "." then "_"%char else c) "-"
   then "_"%char else (if Ascii.eqb c "." then "_"%char else c))
  = symbol_char c.
Proof. each_char c. Qed.

(** A symbol is the base name with every dot and every dash replaced by an
    underscore, and nothing else changed. *)
Lemma symbol_of_map (b : string) : symbol_of b = Py.str_map symbol_char b.
Proof.
  unfold symbol_of, Py.replace. rewrite str_map_map.
  apply str_map_ext. exact symbol_char_replace.
Qed.

Lemma symbol_of_lower (b : string) :
  Py.lower (symbol_of b) = symbol_of (Py.lower b).
Proof.
  rewrite !symbol_of_map. unfold Py.lower. rewrite !str_map_map.
  apply str_map_ext. exact symbol_char_lower.
Qed.

Lemma symbol_of_app (a b : string) :
  symbol_of (a ++ b) = (symbol_of a ++ symbol_of b)%string.
Proof. rewrite !symbol_of_map. apply str_map_app. Qed.

Lemma symbol_of_plain (s : string) :
  str_all plain s = true -> symbol_of s = s.
Proof.
  rewrite symbol_of_map. apply str_map_id. exact symbol_char_plain.
Qed.


Lemma basename_entry (a name : string) :
  Py.has_char "/" name = false ->
  Py.basename (a ++ String "/" name) = name.
Proof.
  intros H.
  assert (forall a, Py.has_char "/" (a ++ String "/" name) = true) as S.
  { intros a'. induction a' as [|d a' IH]; simpl; [reflexivity|].
    rewrite IH. apply orb_true_r. }
  induction a as [|c a IH]; simpl.
  - now rewrite H.
  - now rewrite S.
Qed.

Lemma length_append (a b : string) :
  String.length (a ++ b) = String.length a + String.length b.
Proof. induction a as [|c a IH]; simpl; [reflexivity | now rewrite IH]. Qed.

(** Two ways of cutting a string at the same distance from its end. *)
Lemma append_same_tail (a a' s s' : string) :
  String.length s = String.length s' ->
  (a ++ s)%string = (a' ++ s')%string -> a = a' /\ s = s'.
Proof.
  intros L. revert a'. induction a as [|c a IH]; intros [|d a'] E; simpl in E.
  - auto.
  - apply (f_equal String.length) in E. simpl in E.
    rewrite length_append in E. lia.
  - apply (f_equal String.length) in E. simpl in E.
    rewrite length_append in E. lia.
  - injection E as -> E. destruct (IH a' E) as [-> ->]. auto.
Qed.

(** Two strings that agree up to their first underscore. *)
Lemma underscore_split (a1 a2 r1 r2 : string) :
  str_all plain a1 = true -> str_all plain a2 = true ->
  (a1 ++ String "_" r1)%string = (a2 ++ String "_" r2)%string ->
  a1 = a2 /\ r1 = r2.
Proof.
  revert a2. induction a1 as [|c a1 IH]; intros [|d a2]; simpl.
  - intros _ _ [= ->]. auto.
  - intros _ A [= <- _]. discriminate.
  - intros A _ [= -> _]. discriminate.
  - intros A1 A2 [= -> E].
    apply andb_true_iff in A1, A2. destruct A1 as [_ A1], A2 as [_ A2].
    destruct (IH a2 A1 A2 E) as [-> ->]. auto.
Qed.

End Strings.

(** ** The fonts enumerated *)

Section Fonts.

Lemma fnmatch_star_spec (rest : string -> bool) (s : string) :
  Glob.fnmatch_star rest s = true <->
  exists pre suf, s = (pre ++ suf)%string /\ rest suf = true.
Proof.
  induction s as [|c s IH]; simpl.
  - rewrite orb_false_r. split.
    + intros H. exists "", "". auto.
    + intros (pre & suf & E & H). destruct pre; [|discriminate].
      simpl in E. now subst.
  - rewrite orb_true_iff, IH. split.
    + intros [H|(pre & suf & -> & H)].
      * exists "", (String c s). auto.
      * exists (String c pre), suf. auto.
    + intros (pre & suf & E & H). destruct pre as [|d pre]; simpl in E.
      * left. now subst.
      * injection E as -> ->. right. eauto.
Qed.

Lemma fnmatch_fonts (name : string) :
  Glob.fnmatch (Glob.compile "*.?tf") name = true <-> dot_x_tf name.
Proof.
  change (Glob.compile "*.?tf")
    with [Glob.Star; Glob.Lit "."; Glob.Any; Glob.Lit "t"; Glob.Lit "f"].
  cbn [Glob.fnmatch]. rewrite fnmatch_star_spec. unfold dot_x_tf. split.
  - intros (pre & suf & -> & H). exists pre.
    destruct suf as [|c1 [|c2 [|c3 [|c4 [|c5 r]]]]];
      try discriminate;
      repeat (apply andb_true_iff in H; destruct H as [? H]);
      try discriminate.
    repeat match goal with
           | E : Ascii.eqb _ _ = true |- _ => apply Ascii.eqb_eq in E
           end.
    subst. exists c2. reflexivity.
  - intros (pre & c & ->). exists pre, (String "." (String c "tf")).
    split; reflexivity.
Qed.

(** The fonts enumerated are the entries that are not hidden and end in a
    dot, one character and ["tf"], each under the font directory. *)
Lemma glob_fonts_In (names : list string) (f : string) :
  In f (glob_fonts names) <->
  exists name, In name names /\ f = (font_prefix ++ name)%string /\
               Glob.ishidden name = false /\ dot_x_tf name.
Proof.
  unfold glob_fonts, Glob.glob. rewrite in_map_iff.
  change (Glob.ishidden "*.?tf") with false. cbn [orb].
  split.
  - intros (name & <- & H). apply filter_In in H. destruct H as [Hin H].
    apply andb_true_iff in H. destruct H as [Hh Hm].
    exists name. repeat split; [exact Hin | | now apply fnmatch_fonts].
    now apply negb_true_iff.
  - intros (name & Hin & -> & Hh & Hm). exists name. split; [reflexivity|].
    apply filter_In. split; [exact Hin|].
    apply andb_true_iff. split; [now rewrite Hh | now apply fnmatch_fonts].
Qed.

(** An entry of the index comes from a directory entry: the key is its
    lower-cased path, the value its name. *)
Lemma index_entry (names : list string) (k b : string) :
  Dict.get k (make_lower (glob_fonts names)) = Some b ->
  exists name,
    In name names /\ k = (font_prefix ++ Py.lower name)%string /\
    Glob.ishidden name = false /\ dot_x_tf name /\
    (Py.has_char "/" name = false -> b = name).
Proof.
  intros H. apply make_lower_get in H. destruct H as (f & Hf & Hl & Hb).
  apply glob_fonts_In in Hf. destruct Hf as (name & Hin & -> & Hh & Hm).
  exists name. repeat split; try assumption.
  - rewrite <- Hl. apply (lower_app font_prefix name).
  - intros Hs. rewrite <- Hb.
    apply (basename_entry "resources/fonts/noto" name Hs).
Qed.

Lemma index_has (names : list string) (name : string) :
  In name names -> Glob.ishidden name = false -> dot_x_tf name ->
  exists b,
    Dict.get (font_prefix ++ Py.lower name) (make_lower (glob_fonts names))
    = Some b.
Proof.
  intros Hin Hh Hm.
  assert (In (font_prefix ++ Py.lower name)%string
             (Dict.keys (make_lower (glob_fonts names)))) as K.
  { apply make_lower_keys. exists (font_prefix ++ name)%string. split.
    - apply glob_fonts_In. exists name. auto.
    - apply (lower_app font_prefix name). }
  destruct (Dict.get _ _) as [b|] eqn:E; [eauto|].
  apply get_None in E. contradiction.
Qed.

End Fonts.

(** ** The shape of keys and symbols *)

Section Symbols.

Lemma NoDup_map_on {A B C : Type} (f : A -> B) (g : A -> C) (l : list A) :
  NoDup (map f l) ->
  (forall x y, In x l -> In y l -> g x = g y -> f x = f y) ->
  NoDup (map g l).
Proof.
  induction l as [|a l IH]; simpl; intros ND H; [constructor|].
  inversion ND as [|? ? Ha NDl]; subst. constructor.
  - intros Hg. apply in_map_iff in Hg. destruct Hg as (y & E & Hy).
    apply Ha. rewrite (H a y); auto using in_map.
  - apply IH; auto.
Qed.

Lemma split_nonempty (sep : ascii) (s : string) : Py.split sep s <> [].
Proof.
  destruct s as [|c s]; simpl; [discriminate|].
  destruct (Ascii.eqb c sep); [discriminate|].
  destruct (Py.split sep s); discriminate.
Qed.

(** The pieces of a name without dot or dash, cut at the underscores, are
    made of plain characters. *)
Lemma split_plain (us : string) :
  dot_dash_free us = true ->
  Forall (fun p => str_all plain p = true) (Py.split "_" us).
Proof.
  unfold dot_dash_free. induction us as [|c us IH]; simpl; intros H.
  - repeat constructor.
  - apply andb_true_iff in H. destruct H as [Hc H]. specialize (IH H).
    destruct (Ascii.eqb c "_") eqn:E.
    + constructor; [reflexivity | exact IH].
    + destruct (Py.split "_" us) as [|p ps] eqn:Es.
      * now apply split_nonempty in Es.
      * inversion IH as [|? ? Hp Hps]; subst. constructor; [|exact Hps].
        simpl. rewrite Hp, andb_true_r. unfold plain.
        rewrite E, orb_false_r. exact Hc.
Qed.

Lemma capitalize_plain (p : string) :
  str_all plain p = true -> str_all plain (Py.capitalize p) = true.
Proof.
  destruct p as [|c p]; simpl; [auto|]. intros H.
  apply andb_true_iff in H. destruct H as [Hc H].
  rewrite (plain_upper c Hc). simpl. unfold Py.lower.
  rewrite str_all_map. revert H. apply str_all_impl. exact plain_lower.
Qed.

Lemma join_plain (l : list string) :
  Forall (fun p => str_all plain p = true) l ->
  str_all plain (Py.join l) = true.
Proof.
  unfold Py.join. induction 1 as [|p l Hp Hl IH]; simpl; [reflexivity|].
  destruct l as [|q l]; [exact Hp|].
  rewrite str_all_app, Hp. simpl in IH |- *. exact IH.
Qed.

Lemma Forall_skipn_plain (n : nat) (l : list string) :
  Forall (fun p => str_all plain p = true) l ->
  Forall (fun p => str_all plain p = true) (skipn n l).
Proof.
  revert l. induction n as [|n IH]; intros l H; simpl; [exact H|].
  destruct H; [constructor | now apply IH].
Qed.

Lemma script_name_plain (us : string) :
  dot_dash_free us = true -> str_all plain (script_name us) = true.
Proof.
  intros H. unfold script_name. apply join_plain.
  assert (forall l, Forall (fun p => str_all plain p = true) l ->
            Forall (fun p => str_all plain p = true) (map Py.capitalize l))
    as M by (induction 1; simpl; constructor; auto using capitalize_plain).
  apply M, Forall_skipn_plain, split_plain, H.
Qed.

(** A key is the font directory, a run of plain characters, and one of the
    two endings. *)
Lemma key_shape (us n : string) :
  dot_dash_free us = true -> In n (keys_of us) ->
  exists a e,
    n = (font_prefix ++ a ++ String "-" ("regular" ++ String "." e))%string /\
    str_all plain a = true /\ (e = "otf" \/ e = "ttf").
Proof.
  intros H Hn. apply script_name_plain in H.
  unfold keys_of, candidates in Hn. simpl map in Hn.
  assert (forall style : string,
            str_all plain style = true ->
            str_all plain (Py.lower (style ++ script_name us)) = true) as P.
  { intros style Hs. unfold Py.lower. rewrite str_all_map.
    apply (str_all_impl plain); [exact plain_lower|].
    now rewrite str_all_app, Hs, H. }
  assert (forall style e : string,
            Py.lower (font_prefix ++ (style ++ script_name us)
                        ++ String "-" ("Regular" ++ String "." e))
            = (font_prefix ++ Py.lower (style ++ script_name us)
                 ++ String "-" ("regular" ++ String "." (Py.lower e)))%string)
    as L.
  { intros style e. rewrite (lower_app font_prefix), lower_app.
    reflexivity. }
  destruct Hn as [<-|[<-|[<-|[<-|[]]]]].
  - exists (Py.lower ("NotoSerif" ++ script_name us)), "otf".
    split; [exact (L "NotoSerif" "otf")|]. split; [now apply P | now left].
  - exists (Py.lower ("NotoSans" ++ script_name us)), "otf".
    split; [exact (L "NotoSans" "otf")|]. split; [now apply P | now left].
  - exists (Py.lower ("NotoSerif" ++ script_name us)), "ttf".
    split; [exact (L "NotoSerif" "ttf")|]. split; [now apply P | now right].
  - exists (Py.lower ("NotoSans" ++ script_name us)), "ttf".
    split; [exact (L "NotoSans" "ttf")|]. split; [now apply P | now right].
Qed.

(** Under these shapes, the symbol determines the key. *)
Lemma symbol_key (names : list string) (us1 us2 n1 n2 b1 b2 : string) :
  Forall (fun name => entry_name name = true) names ->
  dot_dash_free us1 = true -> dot_dash_free us2 = true ->
  In n1 (keys_of us1) -> In n2 (keys_of us2) ->
  Dict.get n1 (make_lower (glob_fonts names)) = Some b1 ->
  Dict.get n2 (make_lower (glob_fonts names)) = Some b2 ->
  symbol_of b1 = symbol_of b2 -> n1 = n2.
Proof.
  intros Hnames H1 H2 K1 K2 G1 G2 E.
  assert (forall n b, Dict.get n (make_lower (glob_fonts names)) = Some b ->
            n = (font_prefix ++ Py.lower b)%string) as V.
  { intros n b G. destruct (index_entry names n b G)
      as (name & Hin & -> & _ & _ & Hb).
    rewrite Forall_forall in Hnames. specialize (Hnames name Hin).
    unfold entry_name in Hnames. apply negb_true_iff in Hnames.
    now rewrite (Hb Hnames). }
  destruct (key_shape us1 n1 H1 K1) as (a1 & e1 & S1 & P1 & X1).
  destruct (key_shape us2 n2 H2 K2) as (a2 & e2 & S2 & P2 & X2).
  pose proof (V n1 b1 G1) as V1. pose proof (V n2 b2 G2) as V2.
  rewrite S1 in V1. rewrite S2 in V2.
  apply append_inv_head in V1, V2.
  apply (f_equal Py.lower) in E. rewrite !symbol_of_lower in E.
  rewrite <- V1, <- V2 in E. rewrite !symbol_of_app in E.
  rewrite (symbol_of_plain a1 P1), (symbol_of_plain a2 P2) in E.
  assert (forall e, e = "otf" \/ e = "ttf" ->
            symbol_of (String "-" ("regular" ++ String "." e))
            = String "_" ("regular_" ++ e)) as T
      by (intros e [->| ->]; reflexivity).
  rewrite (T e1 X1), (T e2 X2) in E.
  destruct (underscore_split a1 a2 _ _ P1 P2 E) as [-> R].
  apply (append_inv_head "regular_") in R. subst e2.
  now rewrite S1, S2.
Qed.

End Symbols.

(** ** The properties of the specification *)

Lemma sample_scan : scan_header sample_header = Some sample_scripts.
Proof. vm_compute. reflexivity. Qed.

Lemma sample_run : main sample_header sample_names = Finished sample_output.
Proof. vm_compute. reflexivity. Qed.

(** The examples of the specification: a script whose only font is the
    Sans/ttf one, and a font that matches no script. *)
Example arabic_sans_ttf :
  stdout (main (sample_header) ["NotoSansArabic-Regular.ttf"])
  = [ "case UCDN_SCRIPT_ARABIC: RETURN(noto_NotoSansArabic_Regular_ttf);";
      "case UCDN_SCRIPT_THAI: break;" ].
Proof. vm_compute. reflexivity. Qed.

Example xyzzy_unmapped :
  stdout (main (sample_header) ["NotoSansXyzzy-Regular.otf"])
  = [ "case UCDN_SCRIPT_ARABIC: break;";
      "case UCDN_SCRIPT_THAI: break;";
      "// unmapped font: NotoSansXyzzy-Regular.otf" ].
Proof. vm_compute. reflexivity. Qed.

(** No run ends on the [KeyError] of [lower[f]], and an exception after the
    header has been read is the [ValueError] of the blacklist, raised
    before anything is printed. *)
Lemma generate_Raised (scripts names : list string) (e : exn)
  (o : list printed) :
  generate scripts names = Raised e o ->
  e = ValueError /\ o = [] /\ remove_blacklist blacklist scripts = None.
Proof.
  intros H. destruct (remove_blacklist blacklist scripts) as [sc|] eqn:Eb.
  - rewrite (generate_spec scripts sc names Eb) in H. discriminate.
  - unfold generate in H. rewrite Eb in H. injection H as <- <-. auto.
Qed.

(** C4. Once the header has been read, the run aborts exactly when some
    blacklisted name is absent from the extracted names; that is the case
    exactly when the removal loop reaches a name that the working list,
    as the earlier removals left it, does not hold. The abort is the
    [ValueError] of [list.remove], nothing has been printed by then, and
    a run raises nothing else after the header has been read. *)
Theorem blacklist_abort_iff (header names scripts : list string) :
  scan_header header = Some scripts ->
  ((exists o, main header names = Raised ValueError o) <->
   (exists s, In s blacklist /\ ~ In s scripts)) /\
  ((exists s, In s blacklist /\ ~ In s scripts) <->
   (exists pre s post sc,
       blacklist = pre ++ s :: post /\
       remove_blacklist pre scripts = Some sc /\ ~ In s sc)) /\
  (forall e o, main header names = Raised e o -> e = ValueError /\ o = []).
Proof.
  intros Hs. unfold main. rewrite Hs. split; [|split].
  - rewrite <- (remove_blacklist_None _ _ blacklist_NoDup). split.
    + intros (o & H). now apply generate_Raised in H.
    + intros H. exists []. unfold generate. now rewrite H.
  - rewrite <- (remove_blacklist_None _ _ blacklist_NoDup).
    apply remove_blacklist_None_at.
  - intros e o H. apply generate_Raised in H. tauto.
Qed.

Lemma blacklist_abort_iff_witness :
  scan_header ["#define UCDN_SCRIPT_ARABIC 2"] = Some ["UCDN_SCRIPT_ARABIC"]
  /\ exists o, main ["#define UCDN_SCRIPT_ARABIC 2"] [] = Raised ValueError o.
Proof.
  split; [reflexivity|].
  apply (blacklist_abort_iff ["#define UCDN_SCRIPT_ARABIC 2"] []
           ["UCDN_SCRIPT_ARABIC"] eq_refl).
  exists "UCDN_SCRIPT_UNKNOWN". split; [now left|].
  simpl. intros [H|[]]. discriminate.
Defined.

(** C5, as stated, fails: when a blacklisted name is defined twice, the
    removal loop completes and the name is still in the working list. *)
Lemma blacklisted_name_remains :
  exists scripts sc,
    scan_header header_latin_twice = Some scripts /\
    remove_blacklist blacklist scripts = Some sc /\
    In "UCDN_SCRIPT_LATIN" blacklist /\ In "UCDN_SCRIPT_LATIN" sc.
Proof.
  exists (sample_scripts ++ ["UCDN_SCRIPT_LATIN"]).
  exists ["UCDN_SCRIPT_ARABIC"; "UCDN_SCRIPT_THAI"; "UCDN_SCRIPT_LATIN"].
  repeat split; try (vm_compute; reflexivity).
  - unfold blacklist. simpl. tauto.
  - simpl. tauto.
Qed.

(** C5, amended. When the removal loop completes, it has taken exactly one
    occurrence of each blacklisted name away and has touched no other
    name; so no blacklisted name that was extracted at most once remains
    in the working list. *)
Theorem blacklist_removed_once (scripts sc : list string) :
  remove_blacklist blacklist scripts = Some sc ->
  (forall s, In s blacklist ->
     count_occ string_dec sc s = pred (count_occ string_dec scripts s)) /\
  (forall s, ~ In s blacklist ->
     count_occ string_dec sc s = count_occ string_dec scripts s) /\
  (forall s, In s blacklist ->
     count_occ string_dec scripts s <= 1 -> ~ In s sc).
Proof.
  intros H.
  pose proof (fun y => remove_blacklist_count _ _ _ y blacklist_NoDup H) as C.
  assert (forall s, In s blacklist ->
     count_occ string_dec sc s = pred (count_occ string_dec scripts s)) as C1.
  { intros s Hs. rewrite C. apply mem_In in Hs. now rewrite Hs. }
  split; [exact C1|]. split.
  - intros s Hs. rewrite C. apply mem_false in Hs. now rewrite Hs.
  - intros s Hs Hc Hin. apply (count_occ_In string_dec) in Hin.
    rewrite (C1 s Hs) in Hin. lia.
Qed.

Lemma blacklist_removed_once_witness :
  remove_blacklist blacklist sample_scripts
    = Some ["UCDN_SCRIPT_ARABIC"; "UCDN_SCRIPT_THAI"] /\
  ~ In "UCDN_SCRIPT_LATIN" ["UCDN_SCRIPT_ARABIC"; "UCDN_SCRIPT_THAI"].
Proof.
  split; [vm_compute; reflexivity|].
  apply (blacklist_removed_once sample_scripts
           ["UCDN_SCRIPT_ARABIC"; "UCDN_SCRIPT_THAI"]).
  - vm_compute. reflexivity.
  - unfold blacklist. simpl. tauto.
  - vm_compute. lia.
Defined.

(** C10. In every state of the main loop, each key of the unused pool is a
    key of the index, so the lookups of the unmapped report succeed and
    no later report raises; a key leaves the index only as the winning
    key of the script being processed, and that turn of the loop strips
    it from the pool. *)
Theorem unmapped_lookup_succeeds (fonts : list string) (st : state) :
  reachable fonts st ->
  (forall k, In k (unused st) -> exists b, Dict.get k (lower st) = Some b) /\
  (exists o, report_unmapped (lower st) (unused st) (out st) = Finished o) /\
  (forall scripts e o, report (map_scripts scripts st) <> Raised e o) /\
  (forall us k,
      Dict.contains k (lower st) = true ->
      Dict.contains k (lower (map_script us st)) = false ->
      (exists b, winner us (lower st) = Some (k, b)) /\
      In k (keys_of us) /\
      ~ In k (unused (map_script us st))).
Proof.
  intros R. pose proof (reachable_inv _ _ R) as I.
  split; [|split; [|split]].
  - intros k Hk. apply (inv_unused _ _ I) in Hk.
    destruct (Dict.get k (lower st)) as [b|] eqn:E; [eauto|].
    apply get_None in E. contradiction.
  - rewrite (report_unmapped_spec _ _ _ (inv_unused _ _ I)). eauto.
  - intros scripts e o.
    pose proof (reachable_inv _ _ (reachable_map_scripts _ scripts _ R)) as I'.
    rewrite (report_spec _ (inv_unused _ _ I')). discriminate.
  - intros us k Hin Hout.
    rewrite (map_script_spec us st (inv_nodup _ _ I)) in *.
    cbn [lower unused] in *. unfold Dict.contains in Hin, Hout.
    destruct (winner us (lower st)) as [[n b]|] eqn:Ew; simpl in Hout.
    + rewrite get_del in Hout.
      destruct (String.eqb_spec k n) as [->|N].
      * apply winner_In in Ew. split; [eauto|]. split; [tauto|].
        rewrite filter_In. intros [_ H].
        apply negb_true_iff, mem_false in H. tauto.
      * destruct (Dict.get k (lower st)); discriminate.
    + destruct (Dict.get k (lower st)); discriminate.
Qed.

Lemma unmapped_lookup_succeeds_witness :
  reachable (glob_fonts sample_names) (init (glob_fonts sample_names)) /\
  exists o,
    report_unmapped (lower (init (glob_fonts sample_names)))
                    (unused (init (glob_fonts sample_names)))
                    (out (init (glob_fonts sample_names))) = Finished o.
Proof.
  split; [constructor|].
  apply (unmapped_lookup_succeeds (glob_fonts sample_names)
           (init (glob_fonts sample_names))).
  constructor.
Defined.

(** C9. The unmapped fonts are printed in the order of the unused pool at
    the end of the loop. The pool starts as the sorted list of the keys of
    the index, every turn of the loop keeps it ascending and without
    repetition, and what the report walks through is the ascending list
    of the keys that were never looked up. *)
Theorem unmapped_report_ascending (header names : list string)
  (o : list printed) :
  main header names = Finished o ->
  exists scripts sc,
    scan_header header = Some scripts /\
    remove_blacklist blacklist scripts = Some sc /\
    let fonts := glob_fonts names in
    let d := make_lower fonts in
    unused (init fonts) = Py.sorted (Dict.keys d) /\
    StronglySorted str_le (unused (init fonts)) /\
    (forall st us, reachable fonts st ->
       StronglySorted str_le (unused (map_script us st))) /\
    unused (map_scripts sc (init fonts)) = unmapped_keys sc d /\
    StronglySorted str_le (unmapped_keys sc d) /\
    NoDup (unmapped_keys sc d) /\
    unmapped_fonts o = map (basename_of d) (unmapped_keys sc d).
Proof.
  intros H. destruct (main_blocks _ _ _ H) as (scripts & sc & Hs & Hb & B).
  exists scripts, sc. split; [exact Hs|]. split; [exact Hb|].
  cbv zeta in B |- *. set (fonts := glob_fonts names) in *.
  pose proof (inv_init fonts) as I0.
  assert (unused (map_scripts sc (init fonts))
          = unmapped_keys sc (make_lower fonts)) as E
      by now rewrite (map_scripts_spec sc _ (inv_nodup _ _ I0)).
  pose proof (reachable_inv _ _
    (reachable_map_scripts fonts sc _ (reach_init _))) as I.
  repeat split.
  - exact (inv_sorted _ _ I0).
  - intros st us R.
    exact (inv_sorted _ _ (reachable_inv _ _ (reach_step _ _ us R))).
  - exact E.
  - rewrite <- E. exact (inv_sorted _ _ I).
  - rewrite <- E. exact (inv_nodup _ _ I).
  - tauto.
Qed.

Lemma unmapped_report_ascending_witness :
  main sample_header sample_names = Finished sample_output /\
  exists scripts sc,
    scan_header sample_header = Some scripts /\
    remove_blacklist blacklist scripts = Some sc /\
    StronglySorted str_le
      (unmapped_keys sc (make_lower (glob_fonts sample_names))).
Proof.
  split; [vm_compute; reflexivity|].
  destruct (unmapped_report_ascending sample_header sample_names
              sample_output sample_run)
    as (scripts & sc & Hs & Hb & H).
  cbv zeta in H. destruct H as (_ & _ & _ & _ & H & _).
  exists scripts, sc. auto.
Defined.



(** C6, as stated, fails: a file with the two-letter extension [.tf] is not
    enumerated; only its neighbour with a three-letter extension is. *)
Lemma tf_extension_not_enumerated :
  glob_fonts ["NotoSans-Regular.otf"; "NotoSans-Regular.tf"]
    = ["resources/fonts/noto/NotoSans-Regular.otf"] /\
  ~ In "resources/fonts/noto/NotoSans-Regular.tf"
       (glob_fonts ["NotoSans-Regular.otf"; "NotoSans-Regular.tf"]).
Proof.
  split; [vm_compute; reflexivity|].
  vm_compute. intros [H|[]]. discriminate.
Qed.

(** C6, amended. Font enumeration selects exactly the entries of the fonts
    directory whose name does not start with a dot and ends in a dot, one
    arbitrary character and ["tf"] (so [.otf] and [.ttf]), each under the
    font directory and in the order of the directory listing; a name that
    ends in [.tf] after a character other than a dot is not selected. *)
Theorem glob_fonts_selects (names : list string) :
  (forall f, In f (glob_fonts names) <->
     exists name, In name names /\ f = (font_prefix ++ name)%string /\
                  Glob.ishidden name = false /\ dot_x_tf name) /\
  (exists selected,
      glob_fonts names = map (String.append font_prefix) selected /\
      forall name, In name selected <->
        In name names /\ Glob.ishidden name = false /\ dot_x_tf name) /\
  (forall pre c, c <> "."%char -> ~ dot_x_tf (pre ++ String c ".tf")).
Proof.
  split; [apply glob_fonts_In|]. split.
  - exists (filter (fun name =>
                      (Glob.ishidden "*.?tf" || negb (Glob.ishidden name))
                      && Glob.fnmatch (Glob.compile "*.?tf") name) names).
    split; [reflexivity|].
    intros name. rewrite filter_In, andb_true_iff, fnmatch_fonts.
    change (Glob.ishidden "*.?tf") with false. cbn [orb].
    rewrite negb_true_iff. tauto.
  - intros pre c Hc (pre' & c' & E).
    apply append_same_tail in E; [|reflexivity].
    destruct E as [_ E]. injection E as E _. contradiction.
Qed.

(** C8. In a state of the main loop, when none of the four keys of a script
    is in the index, the turn of the loop prints exactly
    [case <ID>: break;] and leaves the index as it is; and whatever is
    printed, the pool afterwards is the pool before without the four
    keys. *)
Theorem no_match_break (fonts : list string) (st : state) (us : string) :
  reachable fonts st ->
  ((forall n, In n (keys_of us) -> Dict.contains n (lower st) = false) ->
   out (map_script us st) = out st ++ [CaseBreak us] /\
   lower (map_script us st) = lower st) /\
  render (CaseBreak us) = ("case " ++ us ++ ": break;")%string /\
  (forall k, In k (unused (map_script us st)) <->
             In k (unused st) /\ ~ In k (keys_of us)) /\
  unused (map_script us st) =
    filter (fun k => negb (Py.mem k (keys_of us))) (unused st) /\
  keys_of us =
    map Py.lower
      [ "resources/fonts/noto/NotoSerif" ++ script_name us ++ "-Regular.otf";
        "resources/fonts/noto/NotoSans" ++ script_name us ++ "-Regular.otf";
        "resources/fonts/noto/NotoSerif" ++ script_name us ++ "-Regular.ttf";
        "resources/fonts/noto/NotoSans" ++ script_name us ++ "-Regular.ttf"
      ]%string.
Proof.
  intros R. pose proof (reachable_inv _ _ R) as I.
  split; [|split; [|split; [|split]]].
  - intros H. apply first_hit_None in H.
    destruct (map_script_out_lower us st) as [-> ->].
    unfold winner. now rewrite H.
  - reflexivity.
  - intros k. rewrite (map_script_spec us st (inv_nodup _ _ I)).
    cbn [unused]. now rewrite filter_In, negb_true_iff, mem_false.
  - now rewrite (map_script_spec us st (inv_nodup _ _ I)).
  - reflexivity.
Qed.

Lemma no_match_break_witness :
  reachable (glob_fonts sample_names) sample_state /\
  out (map_script "UCDN_SCRIPT_LAO" sample_state)
  = out sample_state ++ [CaseBreak "UCDN_SCRIPT_LAO"] /\
  lower (map_script "UCDN_SCRIPT_LAO" sample_state) = lower sample_state.
Proof.
  split; [constructor|].
  refine (proj1 (no_match_break (glob_fonts sample_names) sample_state
                   "UCDN_SCRIPT_LAO" (reach_init _)) _).
  intros n Hn. vm_compute in Hn.
  destruct Hn as [<-|[<-|[<-|[<-|[]]]]]; vm_compute; reflexivity.
Defined.

(** C3. In a state of the main loop, when a key of a script is in the index
    and the keys tried before it are not, the turn of the loop prints
    exactly [case <ID>: RETURN(noto_<symbol>);], where the symbol is the
    value stored under that key with every dot and every dash replaced by
    an underscore and nothing else changed; that value is the base name
    of an enumerated font whose lower-cased path is the key. *)
Theorem match_line (fonts : list string) (st : state)
  (us n b : string) (before after : list string) :
  reachable fonts st ->
  keys_of us = before ++ n :: after ->
  (forall m, In m before -> Dict.contains m (lower st) = false) ->
  Dict.get n (lower st) = Some b ->
  out (map_script us st) = out st ++ [CaseReturn us (symbol_of b)] /\
  render (CaseReturn us (symbol_of b))
    = ("case " ++ us ++ ": RETURN(noto_" ++ symbol_of b ++ ");")%string /\
  symbol_of b = Py.str_map symbol_char b /\
  String.length (symbol_of b) = String.length b /\
  (forall i, String.get i (symbol_of b)
             = option_map symbol_char (String.get i b)) /\
  (exists f, In f fonts /\ Py.lower f = n /\ Py.basename f = b).
Proof.
  intros R Hk Hb Hg.
  assert (winner us (lower st) = Some (n, b)) as W
      by (apply first_hit_Some; eauto).
  split; [|split; [|split; [|split; [|split]]]].
  - destruct (map_script_out_lower us st) as [-> _]. now rewrite W.
  - reflexivity.
  - apply symbol_of_map.
  - rewrite symbol_of_map. clear. induction b; simpl; congruence.
  - rewrite symbol_of_map. clear. induction b as [|c b IH]; intros i; simpl.
    + reflexivity.
    + destruct i; [reflexivity | apply IH].
  - apply make_lower_get. pose proof (reachable_inv _ _ R) as I.
    apply (In_get _ _ _ (make_lower_NoDup fonts)).
    apply (inv_sub _ _ I). now apply get_In.
Qed.

Lemma match_line_witness :
  reachable (glob_fonts sample_names) sample_state /\
  out (map_script "UCDN_SCRIPT_THAI" sample_state)
  = out sample_state
    ++ [CaseReturn "UCDN_SCRIPT_THAI" (symbol_of "NotoSansThai-Regular.ttf")].
Proof.
  split; [constructor|].
  refine (proj1 (match_line (glob_fonts sample_names) sample_state
           "UCDN_SCRIPT_THAI"
           "resources/fonts/noto/notosansthai-regular.ttf"
           "NotoSansThai-Regular.ttf"
           [ "resources/fonts/noto/notoserifthai-regular.otf";
             "resources/fonts/noto/notosansthai-regular.otf";
             "resources/fonts/noto/notoserifthai-regular.ttf" ]
           [] (reach_init _) _ _ _)).
  - vm_compute. reflexivity.
  - intros m Hm. simpl in Hm.
    destruct Hm as [<-|[<-|[<-|[]]]]; vm_compute; reflexivity.
  - vm_compute. reflexivity.
Defined.





(** C2, as stated, fails: two script names that differ in a dash and a dot
    claim two different fonts whose names differ in the same way, and both
    [RETURN] lines reference the same symbol. *)
Lemma same_symbol_twice :
  main header_dash_dot names_dash_dot
  = Finished [ CaseReturn "UCDN_SCRIPT_A-B" "NotoSansA_B_Regular_otf";
               CaseReturn "UCDN_SCRIPT_A.B" "NotoSansA_B_Regular_otf" ] /\
  ~ NoDup (returned_symbols
             [ CaseReturn "UCDN_SCRIPT_A-B" "NotoSansA_B_Regular_otf";
               CaseReturn "UCDN_SCRIPT_A.B" "NotoSansA_B_Regular_otf" ]).
Proof.
  split; [vm_compute; reflexivity|].
  simpl. intros H. inversion H as [|? ? Hin _]; subst.
  apply Hin. now left.
Qed.

(** C2, amended. Across one whole run, no entry of the font index is
    claimed by more than one script: the claimed keys are pairwise
    distinct, none of them is in the index at the end, and the [RETURN]
    lines are those of the claimed entries, one each. When no processed
    script name holds a dot or a dash (and no directory entry a slash),
    no two [RETURN] lines reference the same symbol. *)
Theorem claims_distinct (header names scripts sc : list string) :
  scan_header header = Some scripts ->
  remove_blacklist blacklist scripts = Some sc ->
  let fonts := glob_fonts names in
  let ws := winners sc (make_lower fonts) in
  exists o,
    main header names = Finished o /\
    NoDup (claimed_keys ws) /\
    (forall k, In k (claimed_keys ws) ->
       Dict.contains k (make_lower fonts) = true /\
       Dict.contains k (lower (map_scripts sc (init fonts))) = false) /\
    returned_symbols o = map (fun e => symbol_of (snd e)) (claimed ws) /\
    (Forall (fun name => entry_name name = true) names ->
     Forall (fun us => dot_dash_free us = true) sc ->
     NoDup (returned_symbols o)).
Proof.
  intros Hs Hb fonts ws. unfold main. rewrite Hs.
  rewrite (generate_spec scripts sc names Hb). cbv zeta. fold fonts ws.
  eexists. split; [reflexivity|].
  assert (returned_symbols
            (case_lines sc ws
             ++ map (fun k => UnmappedFont (basename_of (make_lower fonts) k))
                    (unmapped_keys sc (make_lower fonts))
             ++ map (fun k => UnusedFontFile (basename_of (make_lower fonts) k))
                    (unclaimed_keys sc (make_lower fonts)))
          = map (fun e => symbol_of (snd e)) (claimed ws)) as R.
  { rewrite returned_symbols_app.
    destruct (comments_read_back (basename_of (make_lower fonts))
                (basename_of (make_lower fonts))
                (unmapped_keys sc (make_lower fonts))
                (unclaimed_keys sc (make_lower fonts))) as (_ & _ & ->).
    rewrite app_nil_r. apply case_lines_returned. }
  split; [apply claimed_keys_NoDup|]. split; [|split; [exact R|]].
  - intros k Hk. split.
    + unfold claimed_keys in Hk. apply in_map_iff in Hk.
      destruct Hk as ([n b] & <- & He). apply claimed_get in He.
      unfold Dict.contains. simpl. now rewrite (proj1 He).
    + rewrite (map_scripts_spec sc _ (inv_nodup _ _ (inv_init fonts))).
      cbn [lower init]. fold ws. rewrite claim_all_filter.
      unfold Dict.contains.
      rewrite (get_filter (fun k => negb (Py.mem k (claimed_keys ws)))).
      apply mem_In in Hk. now rewrite Hk.
  - intros Hn Hsc. rewrite R.
    apply (NoDup_map_on fst); [apply claimed_keys_NoDup|].
    intros [n1 b1] [n2 b2] H1 H2 E. simpl in E |- *.
    apply claimed_get in H1, H2.
    destruct H1 as (G1 & us1 & U1 & K1), H2 as (G2 & us2 & U2 & K2).
    rewrite Forall_forall in Hsc.
    exact (symbol_key names us1 us2 n1 n2 b1 b2 Hn
             (Hsc us1 U1) (Hsc us2 U2) K1 K2 G1 G2 E).
Qed.

Lemma claims_distinct_witness :
  scan_header sample_header = Some sample_scripts /\
  remove_blacklist blacklist sample_scripts
    = Some ["UCDN_SCRIPT_ARABIC"; "UCDN_SCRIPT_THAI"] /\
  exists o,
    main sample_header sample_names = Finished o /\
    NoDup (returned_symbols o).
Proof.
  assert (remove_blacklist blacklist sample_scripts
          = Some ["UCDN_SCRIPT_ARABIC"; "UCDN_SCRIPT_THAI"]) as Hb
      by (vm_compute; reflexivity).
  split; [exact sample_scan|]. split; [exact Hb|].
  destruct (claims_distinct sample_header sample_names sample_scripts
              ["UCDN_SCRIPT_ARABIC"; "UCDN_SCRIPT_THAI"] sample_scan Hb)
    as (o & Ho & _ & _ & _ & H).
  exists o. split; [exact Ho|]. apply H.
  - repeat constructor.
  - repeat constructor.
Defined.

(** * Further properties of the script *)

(** ** The header scan *)

Section HeaderScan.

Lemma prefix_append (p s : string) :
  String.prefix p s = true <-> exists rest, s = (p ++ rest)%string.
Proof.
  revert s. induction p as [|a p IH]; intros s; simpl.
  - destruct s; split; eauto.
  - destruct s as [|b s]; simpl.
    + split; [discriminate | intros (rest & E); discriminate].
    + destruct (ascii_dec a b) as [->|N].
      * rewrite IH. split; intros (rest & E); exists rest; congruence.
      * split; [discriminate|]. intros (rest & E). congruence.
Qed.

(** The words that [split()] returns are not empty and hold no white
    space. *)
Lemma split_ws_from_words (cur s t : string) :
  no_space cur = true -> In t (Py.split_ws_from cur s) ->
  t <> "" /\ no_space t = true.
Proof.
  unfold no_space. revert cur.
  induction s as [|c s IH]; intros cur Hc; simpl.
  - destruct (String.eqb_spec cur ""); [contradiction|].
    intros [<-|[]]. auto.
  - destruct (Py.is_space c) eqn:Ec.
    + destruct (String.eqb_spec cur "").
      * apply IH. reflexivity.
      * intros [<-|H]; [auto | now apply (IH "")].
    + apply IH. rewrite str_all_app, Hc. simpl. now rewrite Ec.
Qed.

Lemma split_ws_words (s t : string) :
  In t (Py.split_ws s) -> t <> "" /\ no_space t = true.
Proof. apply split_ws_from_words. reflexivity. Qed.

Lemma scan_header_app (a b : list string) :
  scan_header (a ++ b) =
  match scan_header a, scan_header b with
  | Some x, Some y => Some (x ++ y)
  | _, _ => None
  end.
Proof.
  induction a as [|line a IH]; cbn [scan_header app].
  - now destruct (scan_header b).
  - destruct (Py.startswith line "#define"); [|exact IH].
    destruct (nth_error (Py.split_ws line) 1) as [name|]; [|reflexivity].
    rewrite IH. destruct (scan_header a), (scan_header b); try reflexivity.
    now destruct (Py.startswith name "UCDN_SCRIPT_").
Qed.

Lemma scan_header_In (lines scripts : list string) (name : string) :
  scan_header lines = Some scripts ->
  (In name scripts <->
   exists line,
     In line lines /\ Py.startswith line "#define" = true /\
     nth_error (Py.split_ws line) 1 = Some name /\
     Py.startswith name "UCDN_SCRIPT_" = true).
Proof.
  revert scripts. induction lines as [|line lines IH]; intros scripts;
    cbn [scan_header In].
  - intros [= <-]. split; [intros [] | intros (l & [] & _)].
  - destruct (Py.startswith line "#define") eqn:Ed.
    + destruct (nth_error (Py.split_ws line) 1) as [n1|] eqn:En;
        [|discriminate].
      destruct (scan_header lines) as [sc|]; [|discriminate].
      specialize (IH sc eq_refl). intros [= <-].
      destruct (Py.startswith n1 "UCDN_SCRIPT_") eqn:Ep.
      * cbn [In]. rewrite IH. split.
        -- intros [<-|(l & Hl & H)]; [exists line | exists l]; tauto.
        -- intros (l & [<-|Hl] & H1 & H2 & H3).
           ++ left. congruence.
           ++ right. exists l. tauto.
      * rewrite IH. split.
        -- intros (l & Hl & H). exists l. tauto.
        -- intros (l & [<-|Hl] & H1 & H2 & H3).
           ++ congruence.
           ++ exists l. tauto.
    + intros H. rewrite (IH _ H). split.
      * intros (l & Hl & H'). exists l. tauto.
      * intros (l & [<-|Hl] & H1 & H'); [congruence|]. exists l. tauto.
Qed.

Lemma scan_header_None (lines : list string) :
  scan_header lines = None <->
  exists line,
    In line lines /\ Py.startswith line "#define" = true /\
    List.length (Py.split_ws line) < 2.
Proof.
  induction lines as [|line lines IH]; cbn [scan_header In].
  - split; [discriminate | intros (l & [] & _)].
  - destruct (Py.startswith line "#define") eqn:Ed.
    + destruct (nth_error (Py.split_ws line) 1) as [n1|] eqn:En.
      * assert (1 < List.length (Py.split_ws line)) as L
            by (apply nth_error_Some; congruence).
        destruct (scan_header lines) as [sc|].
        -- split; [discriminate|]. intros (l & [<-|Hl] & H1 & H2); [lia|].
           assert (Some sc = None) as E by (apply IH; exists l; tauto).
           discriminate.
        -- split; [|reflexivity]. intros _.
           destruct (proj1 IH eq_refl) as (l & Hl & H). exists l. tauto.
      * split; [|reflexivity]. intros _. exists line.
        apply nth_error_None in En. repeat split; auto. lia.
    + rewrite IH. split.
      * intros (l & Hl & H). exists l. tauto.
      * intros (l & [<-|Hl] & H1 & H2); [congruence|]. exists l. tauto.
Qed.

End HeaderScan.

(** X1. When the header scan succeeds, the names extracted are exactly the
    second words of the lines that start with [#define] and whose second
    word starts with [UCDN_SCRIPT_]; every extracted name is that prefix
    followed by characters that are not white space. *)
Theorem scan_header_names (lines scripts : list string) :
  scan_header lines = Some scripts ->
  (forall name,
      In name scripts <->
      exists line,
        In line lines /\ Py.startswith line "#define" = true /\
        nth_error (Py.split_ws line) 1 = Some name /\
        Py.startswith name "UCDN_SCRIPT_" = true) /\
  (forall name,
      In name scripts ->
      exists rest, name = ("UCDN_SCRIPT_" ++ rest)%string /\
                   no_space rest = true).
Proof.
  intros H. split; [intros name; now apply scan_header_In|].
  intros name Hn. apply (scan_header_In _ _ name H) in Hn.
  destruct Hn as (line & _ & _ & Hw & Hp).
  apply prefix_append in Hp. destruct Hp as (rest & ->).
  exists rest. split; [reflexivity|].
  apply nth_error_In, split_ws_words in Hw. destruct Hw as [_ Hw].
  unfold no_space in *. rewrite str_all_app in Hw.
  apply andb_true_iff in Hw. tauto.
Qed.

Lemma scan_header_names_witness :
  scan_header sample_header = Some sample_scripts /\
  exists rest, "UCDN_SCRIPT_THAI" = ("UCDN_SCRIPT_" ++ rest)%string /\
               no_space rest = true.
Proof.
  split; [vm_compute; reflexivity|].
  refine (proj2 (scan_header_names sample_header sample_scripts _)
                "UCDN_SCRIPT_THAI" _).
  - vm_compute. reflexivity.
  - unfold sample_scripts. apply in_or_app. right. simpl. tauto.
Defined.

(** X2. The run aborts with the [IndexError] of [line.split()[1]] exactly
    when some line that starts with [#define] has fewer than two words;
    nothing has been printed by then. *)
Theorem header_abort_iff (lines names : list string) :
  ((exists o, main lines names = Raised IndexError o) <->
   (exists line,
       In line lines /\ Py.startswith line "#define" = true /\
       List.length (Py.split_ws line) < 2)) /\
  (forall o, main lines names = Raised IndexError o -> o = []).
Proof.
  rewrite <- scan_header_None. unfold main.
  destruct (scan_header lines) as [scripts|].
  - split.
    + split; [|discriminate]. intros (o & H).
      apply generate_Raised in H. destruct H as [H _]. discriminate.
    + intros o H. apply generate_Raised in H. tauto.
  - split.
    + split; [reflexivity | eauto].
    + now intros o [= <-].
Qed.

(** X3. Scanning two parts of a header one after the other gives the names
    of the first part followed by those of the second, and fails as soon
    as one of the parts does; so lines that do not start with [#define]
    can be added anywhere without changing the names. *)
Theorem scan_header_concat (a b : list string) :
  scan_header (a ++ b) =
    match scan_header a, scan_header b with
    | Some x, Some y => Some (x ++ y)
    | _, _ => None
    end /\
  (forall line,
      Py.startswith line "#define" = false ->
      scan_header (a ++ line :: b) = scan_header (a ++ b)).
Proof.
  split; [apply scan_header_app|].
  intros line H. rewrite !scan_header_app. cbn [scan_header].
  now rewrite H.
Qed.

(** ** Script names *)

Section ScriptNames.

Ltac by_char c :=
  destruct c as [[] [] [] [] [] [] [] []]; vm_compute; try reflexivity;
  try discriminate; auto.

Lemma char_lower_upper (c : ascii) :
  Py.char_lower (Py.char_upper c) = Py.char_lower c.
Proof. by_char c. Qed.

Lemma char_lower_lower (c : ascii) :
  Py.char_lower (Py.char_lower c) = Py.char_lower c.
Proof. by_char c. Qed.

Lemma lower_lower (s : string) : Py.lower (Py.lower s) = Py.lower s.
Proof.
  unfold Py.lower. rewrite str_map_map. apply str_map_ext.
  exact char_lower_lower.
Qed.

Lemma lower_capitalize (p : string) : Py.lower (Py.capitalize p) = Py.lower p.
Proof.
  destruct p as [|c p]; [reflexivity|].
  change (Py.lower (Py.capitalize (String c p)))
    with (String (Py.char_lower (Py.char_upper c)) (Py.lower (Py.lower p))).
  now rewrite char_lower_upper, lower_lower.
Qed.

Lemma join_cons (x : string) (l : list string) :
  Py.join (x :: l) = (x ++ Py.join l)%string.
Proof.
  unfold Py.join. destruct l as [|y l]; simpl; [|reflexivity].
  induction x as [|c x IH]; simpl; congruence.
Qed.

Lemma lower_join_capitalize (l : list string) :
  Py.lower (Py.join (map Py.capitalize l)) = Py.lower (Py.join l).
Proof.
  induction l as [|p l IH]; [reflexivity|].
  cbn [map]. rewrite !join_cons, !lower_app, IH.
  now rewrite lower_capitalize.
Qed.

Lemma join_split (sep : ascii) (s : string) :
  Py.join (Py.split sep s) = drop_char sep s.
Proof.
  induction s as [|c s IH]; [reflexivity|]. cbn [Py.split drop_char].
  destruct (Ascii.eqb c sep).
  - now rewrite join_cons.
  - destruct (Py.split sep s) as [|p ps] eqn:E.
    + now apply split_nonempty in E.
    + rewrite join_cons in *. simpl. now rewrite IH.
Qed.

Lemma split_piece (sep : ascii) (a r : string) :
  Py.has_char sep a = false ->
  Py.split sep (a ++ String sep r) = a :: Py.split sep r.
Proof.
  induction a as [|c a IH]; simpl; intros H.
  - now rewrite Ascii.eqb_refl.
  - apply orb_false_iff in H. destruct H as [Hc H].
    rewrite Hc, (IH H). reflexivity.
Qed.

(** The keys of a script depend on its name fragment up to case only. *)
Lemma keys_of_lower (u1 u2 : string) :
  Py.lower (script_name u1) = Py.lower (script_name u2) ->
  keys_of u1 = keys_of u2.
Proof.
  intros H. unfold keys_of, candidates. cbn [map].
  assert (forall (p q : string) us,
            Py.lower (p ++ script_name us ++ q)
            = (Py.lower p ++ Py.lower (script_name us) ++ Py.lower q)%string)
    as L by (intros; now rewrite !lower_app).
  rewrite !L, H. reflexivity.
Qed.

End ScriptNames.

(** X4. The name fragment of [UCDN_SCRIPT_<rest>] is, up to case, [rest]
    without its underscores; so two scripts whose names differ only in
    case or in underscores are looked up under the same four keys, and
    compete for the same fonts. *)
Theorem script_name_fragment (rest : string) :
  Py.lower (script_name ("UCDN_SCRIPT_" ++ rest))
    = Py.lower (drop_char "_" rest) /\
  (forall rest',
      Py.lower (drop_char "_" rest') = Py.lower (drop_char "_" rest) ->
      keys_of ("UCDN_SCRIPT_" ++ rest') = keys_of ("UCDN_SCRIPT_" ++ rest)).
Proof.
  assert (forall r, Py.lower (script_name ("UCDN_SCRIPT_" ++ r))
                    = Py.lower (drop_char "_" r)) as F.
  { intros r. unfold script_name.
    change ("UCDN_SCRIPT_" ++ r)%string
      with ("UCDN" ++ String "_" ("SCRIPT" ++ String "_" r))%string.
    rewrite (split_piece "_" "UCDN") by reflexivity.
    rewrite (split_piece "_" "SCRIPT") by reflexivity.
    cbn [skipn]. now rewrite lower_join_capitalize, join_split. }
  split; [apply F|].
  intros rest' H. apply keys_of_lower. now rewrite !F.
Qed.

(** X11. A generated symbol holds neither a dot nor a dash; a base name
    that holds none is its own symbol, and making the symbol of a symbol
    changes nothing. *)
Theorem symbol_shape (b : string) :
  dot_dash_free (symbol_of b) = true /\
  (dot_dash_free b = true -> symbol_of b = b) /\
  symbol_of (symbol_of b) = symbol_of b /\
  String.length (symbol_of b) = String.length b.
Proof.
  assert (forall c, negb (Ascii.eqb (symbol_char c) "."
                          || Ascii.eqb (symbol_char c) "-") = true) as A.
  { intros c. unfold symbol_char.
    destruct (Ascii.eqb c ".") eqn:E1; [reflexivity|].
    destruct (Ascii.eqb c "-") eqn:E2; [reflexivity|].
    simpl. now rewrite E1, E2. }
  assert (forall c, negb (Ascii.eqb c "." || Ascii.eqb c "-") = true ->
                    symbol_char c = c) as B.
  { intros c H. unfold symbol_char. apply negb_true_iff in H.
    now rewrite H. }
  assert (forall s, dot_dash_free s = true -> symbol_of s = s) as C.
  { intros s H. rewrite symbol_of_map.
    exact (str_map_id _ _ s B H). }
  assert (dot_dash_free (symbol_of b) = true) as D.
  { unfold dot_dash_free. rewrite symbol_of_map, str_all_map.
    clear -A. induction b as [|c b IH]; simpl; [reflexivity|].
    now rewrite A, IH. }
  split; [exact D|]. split; [apply C|]. split; [now apply C|].
  rewrite symbol_of_map. clear. induction b; simpl; congruence.
Qed.

Lemma symbol_shape_witness :
  dot_dash_free "NotoSans_Regular_otf" = true /\
  symbol_of "NotoSans_Regular_otf" = "NotoSans_Regular_otf".
Proof.
  split; [reflexivity|].
  exact (proj1 (proj2 (symbol_shape "NotoSans_Regular_otf")) eq_refl).
Defined.

(** ** The scripts that are processed *)

Section Processed.

Lemma list_remove_perm (x : string) (l l' : list string) :
  Py.list_remove x l = Some l' -> Permutation (x :: l') l.
Proof.
  revert l'. induction l as [|y r IH]; simpl; intros l' H; [discriminate|].
  destruct (String.eqb_spec y x) as [->|N].
  - injection H as <-. reflexivity.
  - destruct (Py.list_remove x r) as [r'|]; [|discriminate].
    injection H as <-. rewrite perm_swap. constructor. now apply IH.
Qed.

Lemma remove_blacklist_perm (bl scripts sc : list string) :
  remove_blacklist bl scripts = Some sc -> Permutation (bl ++ sc) scripts.
Proof.
  revert scripts. induction bl as [|s bl IH]; intros scripts; simpl.
  - intros [= <-]. reflexivity.
  - destruct (Py.list_remove s scripts) as [s1|] eqn:E; [|discriminate].
    intros H. rewrite <- (list_remove_perm _ _ _ E).
    constructor. now apply IH.
Qed.

Lemma remove_blacklist_filter (bl scripts sc : list string) :
  NoDup scripts -> remove_blacklist bl scripts = Some sc ->
  sc = filter (fun s => negb (Py.mem s bl)) scripts.
Proof.
  revert scripts. induction bl as [|s bl IH]; intros scripts ND; simpl.
  - intros [= <-]. symmetry. now apply filter_id.
  - destruct (Py.list_remove s scripts) as [s1|] eqn:E; [|discriminate].
    intros H. pose proof (list_remove_NoDup _ _ _ ND E) as ->.
    rewrite (IH _ (NoDup_filter _ ND) H), filter_filter.
    apply filter_ext. intros y. now rewrite negb_orb.
Qed.

End Processed.

(** X6. When the removal loop completes, the extracted names are the
    fifteen blacklisted names and the names kept, in some order; and when
    no name was extracted twice, the names kept are the extracted names
    that are not blacklisted, in the order of the header. *)
Theorem processed_scripts (scripts sc : list string) :
  remove_blacklist blacklist scripts = Some sc ->
  Permutation (blacklist ++ sc) scripts /\
  List.length scripts = 15 + List.length sc /\
  (NoDup scripts ->
   sc = filter (fun s => negb (Py.mem s blacklist)) scripts).
Proof.
  intros H. pose proof (remove_blacklist_perm _ _ _ H) as P.
  split; [exact P|]. split.
  - rewrite <- (Permutation_length P), length_app. reflexivity.
  - intros ND. now apply remove_blacklist_filter.
Qed.

Lemma processed_scripts_witness :
  remove_blacklist blacklist sample_scripts
    = Some ["UCDN_SCRIPT_ARABIC"; "UCDN_SCRIPT_THAI"] /\
  List.length sample_scripts
    = 15 + List.length ["UCDN_SCRIPT_ARABIC"; "UCDN_SCRIPT_THAI"].
Proof.
  assert (remove_blacklist blacklist sample_scripts
          = Some ["UCDN_SCRIPT_ARABIC"; "UCDN_SCRIPT_THAI"]) as H
      by (vm_compute; reflexivity).
  split; [exact H|].
  exact (proj1 (proj2 (processed_scripts sample_scripts _ H))).
Defined.

(** ** The index as a function of the fonts *)

Section IndexOrder.

Lemma index_fold_get_other (fonts : list string) (d : Dict.t) (k : string) :
  (forall g, In g fonts -> Py.lower g <> k) ->
  Dict.get k
    (fold_left (fun d f => Dict.set (Py.lower f) (Py.basename f) d) fonts d)
  = Dict.get k d.
Proof.
  revert d. induction fonts as [|f fonts IH]; intros d H; simpl; [reflexivity|].
  rewrite IH by (intros g Hg; apply H; now right).
  rewrite get_set. destruct (String.eqb_spec k (Py.lower f)) as [->|N].
  - exfalso. apply (H f); [now left | reflexivity].
  - reflexivity.
Qed.

Lemma set_new (k v : string) (d : Dict.t) :
  ~ In k (Dict.keys d) -> Dict.set k v d = d ++ [(k, v)].
Proof.
  induction d as [|[k' v'] r IH]; simpl; intros H; [reflexivity|].
  destruct (String.eqb_spec k' k) as [->|N]; [tauto|].
  rewrite IH by tauto. reflexivity.
Qed.

Lemma index_fold_distinct (fonts : list string) (d : Dict.t) :
  NoDup (map Py.lower fonts) ->
  (forall f, In f fonts -> ~ In (Py.lower f) (Dict.keys d)) ->
  fold_left (fun d f => Dict.set (Py.lower f) (Py.basename f) d) fonts d
  = d ++ map index_pair fonts.
Proof.
  revert d. induction fonts as [|f fonts IH]; intros d ND H; simpl.
  - now rewrite app_nil_r.
  - inversion ND as [|? ? Hf ND']; subst.
    rewrite (set_new _ _ d (H f (or_introl eq_refl))).
    rewrite IH; [now rewrite <- app_assoc | exact ND' |].
    intros g Hg. unfold Dict.keys. rewrite map_app, in_app_iff.
    intros [K|[K|[]]].
    + apply (H g); [now right | exact K].
    + simpl in K. apply Hf. rewrite K. now apply in_map.
Qed.

End IndexOrder.

(** X7. When several fonts have the same lower-cased path, the index keeps
    the base name of the last of them: the value under the key of a font
    is the base name of that font whenever no later font has the same
    lower-cased path. *)
Theorem index_last_wins (before after : list string) (f : string) :
  (forall g, In g after -> Py.lower g <> Py.lower f) ->
  Dict.get (Py.lower f) (make_lower (before ++ f :: after))
  = Some (Py.basename f).
Proof.
  intros H. unfold make_lower. rewrite fold_left_app. simpl.
  rewrite (index_fold_get_other after _ _ H), get_set.
  now rewrite String.eqb_refl.
Qed.

Lemma index_last_wins_witness :
  Dict.get (Py.lower "dir/A.OTF") (make_lower (["dir/a.otf"] ++ "dir/A.OTF" :: []))
  = Some (Py.basename "dir/A.OTF").
Proof.
  apply (index_last_wins ["dir/a.otf"] [] "dir/A.OTF").
  intros g [].
Defined.

(** X8. When the fonts have pairwise distinct lower-cased paths, the index
    lists them in the order of the enumeration, each under its lower-cased
    path with its base name, and the pool starts as the sorted list of the
    lower-cased paths. *)
Theorem index_of_distinct (fonts : list string) :
  NoDup (map Py.lower fonts) ->
  make_lower fonts = map index_pair fonts /\
  Dict.keys (make_lower fonts) = map Py.lower fonts /\
  unused (init fonts) = Py.sorted (map Py.lower fonts).
Proof.
  intros ND.
  assert (make_lower fonts = map index_pair fonts) as E
      by (apply (index_fold_distinct fonts [] ND); intros f _ []).
  assert (Dict.keys (make_lower fonts) = map Py.lower fonts) as K.
  { rewrite E. unfold Dict.keys. rewrite map_map. reflexivity. }
  split; [exact E|]. split; [exact K|].
  unfold init. cbn [unused]. now rewrite K.
Qed.

Lemma index_of_distinct_witness :
  NoDup (map Py.lower (glob_fonts sample_names)) /\
  make_lower (glob_fonts sample_names)
  = map index_pair (glob_fonts sample_names).
Proof.
  assert (NoDup (map Py.lower (glob_fonts sample_names))) as ND.
  { vm_compute. repeat (constructor; [simpl; intuition discriminate|]).
    constructor. }
  split; [exact ND|].
  exact (proj1 (index_of_distinct (glob_fonts sample_names) ND)).
Defined.

(** ** What a run does to the fonts *)

Section Accounting.

Lemma list_remove_incl (x y : string) (l l' : list string) :
  Py.list_remove x l = Some l' -> In y l' -> In y l.
Proof.
  intros H Hy. apply (Permutation_in y (list_remove_perm _ _ _ H)).
  now right.
Qed.

Lemma strip_unused_incl (font : string) (st : state) (k : string) :
  In k (unused (strip_unused font st)) -> In k (unused st).
Proof.
  unfold strip_unused. destruct (Py.mem _ _); [|auto].
  destruct (Py.list_remove _ _) as [u|] eqn:E; [|auto].
  simpl. now apply list_remove_incl with (1 := E).
Qed.

Lemma strip_all_incl (l : list string) (st : state) (k : string) :
  In k (unused (fold_left (fun st font => strip_unused font st) l st)) ->
  In k (unused st).
Proof.
  revert st. induction l as [|font r IH]; intros st; simpl; [auto|].
  intros H. apply IH in H. now apply strip_unused_incl in H.
Qed.

Lemma case_lines_ids (scripts : list string) (d : Dict.t) :
  map case_id (case_lines scripts (winners scripts d)) = map Some scripts.
Proof.
  unfold case_lines. revert d.
  induction scripts as [|us r IH]; intros d; simpl; [reflexivity|].
  rewrite IH. now destruct (winner us d) as [[n b]|].
Qed.

Lemma winners_empty (scripts : list string) :
  case_lines scripts (winners scripts []) = map CaseBreak scripts.
Proof.
  unfold case_lines.
  assert (forall us, winner us [] = None) as W.
  { intros us. unfold winner. induction (keys_of us); simpl; auto. }
  induction scripts as [|us r IH]; [reflexivity|].
  cbn [winners]. rewrite W. cbn [claim combine map fst snd case_line].
  now rewrite IH.
Qed.

Lemma claimed_keys_index (scripts : list string) (d : Dict.t) (k : string) :
  In k (claimed_keys (winners scripts d)) -> In k (Dict.keys d).
Proof.
  unfold claimed_keys. intros H. apply in_map_iff in H.
  destruct H as ([n b] & <- & H). apply claimed_get in H.
  destruct H as [H _]. apply get_In in H. now apply (in_map fst) in H.
Qed.

(** The keys of the index, shared out between the three outcomes. *)
Lemma keys_shared_out (sc : list string) (d : Dict.t) :
  NoDup (Dict.keys d) ->
  Permutation (Dict.keys d)
    (claimed_keys (winners sc d) ++ unmapped_keys sc d
     ++ unclaimed_keys sc d).
Proof.
  intros ND.
  assert (NoDup (Py.sorted (Dict.keys d))) as NS.
  { apply (Permutation_NoDup (l := Dict.keys d)); [|exact ND].
    symmetry. apply sorted_perm. }
  assert (forall k, In k (Py.sorted (Dict.keys d)) <-> In k (Dict.keys d))
    as SK.
  { intros k. split; apply Permutation_in;
      [apply sorted_perm | symmetry; apply sorted_perm]. }
  apply NoDup_Permutation; [exact ND | |].
  - apply NoDup_app; [apply claimed_keys_NoDup | |].
    + apply NoDup_app; [now apply NoDup_filter | now apply NoDup_filter |].
      unfold unmapped_keys, unclaimed_keys. intros k H1 H2.
      apply filter_In in H1, H2. destruct H1 as [_ H1], H2 as [_ H2].
      apply andb_true_iff in H2. destruct H2 as [_ H2].
      rewrite H2 in H1. discriminate.
    + intros k Hc H. apply in_app_or in H.
      unfold unmapped_keys, unclaimed_keys in H.
      destruct H as [H|H]; apply filter_In in H; destruct H as [_ H].
      * apply claimed_keys_all, mem_In in Hc. rewrite Hc in H. discriminate.
      * apply mem_In in Hc. rewrite Hc in H. discriminate.
  - intros k. rewrite !in_app_iff. unfold unmapped_keys, unclaimed_keys.
    rewrite !filter_In, SK. split.
    + intros Hk.
      destruct (Py.mem k (claimed_keys (winners sc d))) eqn:Ec.
      * left. now apply mem_In.
      * right. destruct (Py.mem k (all_keys sc)) eqn:Ea; [right | left];
          auto.
    + intros [H|[H|H]]; [|tauto|tauto].
      now apply claimed_keys_index in H.
Qed.

End Accounting.

(** X12. Whatever the state, a turn of the main loop prints exactly one
    line, never adds an entry to the index nor changes a stored value,
    deletes at most one entry, and never adds a key to the unused pool. *)
Theorem loop_only_shrinks (us : string) (st : state) :
  List.length (out (map_script us st)) = S (List.length (out st)) /\
  (forall k v, Dict.get k (lower (map_script us st)) = Some v ->
               Dict.get k (lower st) = Some v) /\
  (forall k, In k (unused (map_script us st)) -> In k (unused st)) /\
  (lower (map_script us st) = lower st \/
   exists n, lower (map_script us st) = Dict.del n (lower st) /\
             In n (keys_of us)).
Proof.
  destruct (map_script_out_lower us st) as [Ho Hl].
  split; [|split; [|split]].
  - rewrite Ho, length_app. simpl. lia.
  - intros k v. rewrite Hl.
    destruct (winner us (lower st)) as [[n b]|]; simpl; [|auto].
    rewrite get_del. destruct (String.eqb k n); [discriminate | auto].
  - intros k H. unfold map_script in H. rewrite any_casefont_spec in H.
    destruct (first_hit _ _) as [[n b]|];
      apply strip_all_incl in H; exact H.
  - rewrite Hl. destruct (winner us (lower st)) as [[n b]|] eqn:E; [|now left].
    right. exists n. split; [reflexivity|]. now apply winner_In in E.
Qed.

(** X5. A run that finishes prints the [case] lines first and the comments
    after them, and the [case] lines are one per processed script, in the
    order in which the header defines them. *)
Theorem case_block (header names : list string) (o : list printed) :
  main header names = Finished o ->
  exists scripts sc cases comments,
    scan_header header = Some scripts /\
    remove_blacklist blacklist scripts = Some sc /\
    o = cases ++ comments /\
    map case_id cases = map Some sc /\
    Forall (fun p => case_id p = None) comments.
Proof.
  intros H. destruct (main_Finished _ _ _ H) as (scripts & sc & Hs & Hb & E).
  cbv zeta in E. exists scripts, sc. eexists. eexists.
  split; [exact Hs|]. split; [exact Hb|]. split; [exact E|].
  split; [apply case_lines_ids|].
  apply Forall_app. split; apply Forall_forall; intros p Hp;
    apply in_map_iff in Hp; destruct Hp as (k & <- & _); reflexivity.
Qed.

Lemma case_block_witness :
  main sample_header sample_names = Finished sample_output /\
  exists cases comments,
    sample_output = cases ++ comments /\
    Forall (fun p => case_id p = None) comments.
Proof.
  split; [vm_compute; reflexivity|].
  destruct (case_block sample_header sample_names sample_output sample_run)
    as (scripts & sc & cases & comments & _ & _ & E & _ & F).
  exists cases, comments. auto.
Defined.

(** X9. In a run that finishes, every entry of the font index meets
    exactly one fate: it is claimed by a script, or reported as unmapped,
    or reported as unused; so the entries are as many as the [RETURN]
    lines and the two kinds of comments together. *)
Theorem fonts_accounted (header names : list string) (o : list printed) :
  main header names = Finished o ->
  exists scripts sc,
    scan_header header = Some scripts /\
    remove_blacklist blacklist scripts = Some sc /\
    let d := make_lower (glob_fonts names) in
    Permutation (Dict.keys d)
      (claimed_keys (winners sc d) ++ unmapped_keys sc d
       ++ unclaimed_keys sc d) /\
    List.length d =
      List.length (returned_symbols o) + List.length (unmapped_fonts o)
      + List.length (unused_font_files o).
Proof.
  intros H. destruct (main_blocks _ _ _ H) as (scripts & sc & Hs & Hb & B).
  exists scripts, sc. split; [exact Hs|]. split; [exact Hb|].
  cbv zeta in B |- *. destruct B as (-> & -> & ->).
  pose proof (keys_shared_out sc _ (make_lower_NoDup (glob_fonts names)))
    as P.
  split; [exact P|].
  apply Permutation_length in P. unfold Dict.keys, claimed_keys in P.
  rewrite !length_app, !length_map in P. rewrite !length_map. lia.
Qed.

Lemma fonts_accounted_witness :
  main sample_header sample_names = Finished sample_output /\
  List.length (make_lower (glob_fonts sample_names)) =
    List.length (returned_symbols sample_output)
    + List.length (unmapped_fonts sample_output)
    + List.length (unused_font_files sample_output).
Proof.
  split; [vm_compute; reflexivity|].
  destruct (fonts_accounted sample_header sample_names sample_output
              sample_run) as (scripts & sc & _ & _ & H).
  cbv zeta in H. exact (proj2 H).
Defined.

(** X10. When no entry of the font directory is selected (an empty or
    missing directory, or no name that ends in a dot, one character and
    ["tf"]), the run prints [case <ID>: break;] for every processed script
    and no comment. *)
Theorem no_fonts_all_break (header names scripts sc : list string) :
  scan_header header = Some scripts ->
  remove_blacklist blacklist scripts = Some sc ->
  glob_fonts names = [] ->
  main header names = Finished (map CaseBreak sc).
Proof.
  intros Hs Hb Hg. unfold main. rewrite Hs.
  rewrite (generate_spec scripts sc names Hb). cbv zeta. rewrite Hg.
  change (make_lower []) with (@nil (string * string)).
  rewrite winners_empty. unfold unmapped_keys, unclaimed_keys. simpl.
  now rewrite app_nil_r.
Qed.

Lemma no_fonts_all_break_witness :
  scan_header sample_header = Some sample_scripts /\
  main sample_header ["README"; ".hidden.otf"; "NotoSans-Regular.woff"]
  = Finished (map CaseBreak ["UCDN_SCRIPT_ARABIC"; "UCDN_SCRIPT_THAI"]).
Proof.
  split; [vm_compute; reflexivity|].
  apply (no_fonts_all_break sample_header _ sample_scripts).
  - vm_compute. reflexivity.
  - vm_compute. reflexivity.
  - vm_compute. reflexivity.
Defined.

(** ** Fonts and directory entries *)

Section Entries.

(** With entry names free of ["/"], the value under a key of the index is
    a selected entry of the directory, and determines the key. *)
Lemma key_value (names : list string) (k : string) :
  Forall (fun n => entry_name n = true) names ->
  In k (Dict.keys (make_lower (glob_fonts names))) ->
  let b := basename_of (make_lower (glob_fonts names)) k in
  In b names /\ k = (font_prefix ++ Py.lower b)%string /\
  dot_x_tf b /\ Glob.ishidden b = false.
Proof.
  intros Hn Hk. cbv zeta. unfold basename_of.
  destruct (Dict.get k _) as [v|] eqn:E.
  - destruct (index_entry names k v E) as (name & Hin & -> & Hh & Hm & Hv).
    rewrite Forall_forall in Hn. specialize (Hn name Hin).
    unfold entry_name in Hn. apply negb_true_iff in Hn.
    rewrite (Hv Hn). auto.
  - apply get_None in E. contradiction.
Qed.

Lemma not_hidden (name rest : string) :
  Py.lower name = String "n" rest -> Glob.ishidden name = false.
Proof.
  intros H. destruct (Glob.ishidden name) eqn:E; [|reflexivity].
  unfold Glob.ishidden, Py.startswith in E. apply prefix_append in E.
  destruct E as (r & ->).
  change (Py.lower ("." ++ r)) with (String "." (Py.lower r)) in H.
  discriminate.
Qed.

End Entries.

(** X13. Fonts are matched without regard to case: when the directory
    holds an entry that ends in a dot, one character and ["tf"] and whose
    lower-cased name is the lower-cased Serif/otf name of a script, that
    script, processed first, prints a [RETURN] line whose symbol is made
    from an entry with that lower-cased name. *)
Theorem serif_otf_match (names : list string) (us name : string) :
  Forall (fun n => entry_name n = true) names ->
  In name names ->
  dot_x_tf name ->
  Py.lower name
    = Py.lower ("NotoSerif" ++ script_name us ++ "-Regular.otf") ->
  exists b,
    In b names /\ Py.lower b = Py.lower name /\
    out (map_script us (init (glob_fonts names)))
      = [CaseReturn us (symbol_of b)].
Proof.
  intros Hn Hin Hm Hl.
  assert (Glob.ishidden name = false) as Hh.
  { rewrite (lower_app "NotoSerif") in Hl. exact (not_hidden _ _ Hl). }
  destruct (index_has names name Hin Hh Hm) as (v & Hv).
  assert (In (font_prefix ++ Py.lower name)%string
             (Dict.keys (make_lower (glob_fonts names)))) as Hk.
  { apply get_In in Hv. now apply (in_map fst) in Hv. }
  destruct (key_value names _ Hn Hk) as (Hb1 & Hb2 & _).
  unfold basename_of in Hb1, Hb2. rewrite Hv in Hb1, Hb2.
  apply append_inv_head in Hb2.
  exists v. split; [exact Hb1|]. split; [now symmetry|].
  destruct (map_script_out_lower us (init (glob_fonts names))) as [-> _].
  assert (winner us (lower (init (glob_fonts names)))
          = Some ((font_prefix ++ Py.lower name)%string, v)) as W.
  { unfold winner, keys_of, candidates. cbn [map first_hit init lower].
    change (Py.lower ("resources/fonts/noto/NotoSerif" ++ script_name us
                        ++ "-Regular.otf"))
      with (Py.lower (font_prefix
                        ++ ("NotoSerif" ++ script_name us ++ "-Regular.otf"))).
    rewrite (lower_app font_prefix), <- Hl.
    change (Py.lower font_prefix) with font_prefix. now rewrite Hv. }
  rewrite W. reflexivity.
Qed.

Lemma serif_otf_match_witness :
  In "NOTOSERIFARABIC-REGULAR.otf"
     ["NotoSansArabic-Regular.otf"; "NOTOSERIFARABIC-REGULAR.otf"] /\
  exists b,
    In b ["NotoSansArabic-Regular.otf"; "NOTOSERIFARABIC-REGULAR.otf"] /\
    Py.lower b = Py.lower "NOTOSERIFARABIC-REGULAR.otf" /\
    out (map_script arabic
           (init (glob_fonts ["NotoSansArabic-Regular.otf";
                              "NOTOSERIFARABIC-REGULAR.otf"])))
    = [CaseReturn arabic (symbol_of b)].
Proof.
  assert (In "NOTOSERIFARABIC-REGULAR.otf"
             ["NotoSansArabic-Regular.otf"; "NOTOSERIFARABIC-REGULAR.otf"])
    as H by (simpl; tauto).
  split; [exact H|].
  refine (serif_otf_match _ arabic "NOTOSERIFARABIC-REGULAR.otf" _ H _ _).
  - repeat constructor.
  - exists "NOTOSERIFARABIC-REGULAR", "o"%char. reflexivity.
  - vm_compute. reflexivity.
Defined.

(** X14. With entry names free of ["/"], every name printed in a comment of
    a run that finishes is an entry of the font directory selected by the
    enumeration, and no name is reported both as unmapped and as unused. *)
Theorem comments_name_entries (header names : list string)
  (o : list printed) :
  main header names = Finished o ->
  Forall (fun n => entry_name n = true) names ->
  (forall b, In b (unmapped_fonts o) \/ In b (unused_font_files o) ->
             In b names /\ dot_x_tf b /\ Glob.ishidden b = false) /\
  (forall b, In b (unmapped_fonts o) -> ~ In b (unused_font_files o)).
Proof.
  intros H Hn. destruct (main_blocks _ _ _ H) as (scripts & sc & _ & _ & B).
  cbv zeta in B. destruct B as (_ & -> & ->).
  set (d := make_lower (glob_fonts names)).
  assert (forall k, In k (unmapped_keys sc d) -> In k (Dict.keys d)) as KU.
  { intros k Hk. unfold unmapped_keys in Hk. apply filter_In in Hk.
    apply (Permutation_in k (sorted_perm _)). tauto. }
  assert (forall k, In k (unclaimed_keys sc d) -> In k (Dict.keys d)) as KV.
  { intros k Hk. unfold unclaimed_keys in Hk. apply filter_In in Hk. tauto. }
  split.
  - intros b [Hb|Hb]; apply in_map_iff in Hb; destruct Hb as (k & <- & Hk);
      [apply KU in Hk | apply KV in Hk];
      destruct (key_value names k Hn Hk) as (H1 & _ & H3 & H4); auto.
  - intros b Hu Hv. apply in_map_iff in Hu, Hv.
    destruct Hu as (k1 & E1 & H1), Hv as (k2 & E2 & H2).
    destruct (key_value names k1 Hn (KU _ H1)) as (_ & K1 & _).
    destruct (key_value names k2 Hn (KV _ H2)) as (_ & K2 & _).
    fold d in K1, K2. rewrite E1 in K1. rewrite E2 in K2.
    rewrite <- K2 in K1. subst k2.
    unfold unmapped_keys in H1. unfold unclaimed_keys in H2.
    apply filter_In in H1, H2. destruct H1 as [_ H1], H2 as [_ H2].
    apply andb_true_iff in H2. destruct H2 as [_ H2].
    rewrite H2 in H1. discriminate.
Qed.

Lemma comments_name_entries_witness :
  main sample_header sample_names = Finished sample_output /\
  Forall (fun n => entry_name n = true) sample_names /\
  forall b, In b (unmapped_fonts sample_output) ->
            ~ In b (unused_font_files sample_output).
Proof.
  assert (Forall (fun n => entry_name n = true) sample_names) as F
      by repeat constructor.
  split; [vm_compute; reflexivity|]. split; [exact F|].
  exact (proj2 (comments_name_entries sample_header sample_names
                  sample_output sample_run F)).
Defined.

(** ** The run seen from the header and the directory *)

Section Views.

Lemma map_filter_keys (d : Dict.t) (p : string -> bool)
  (fonts : list string) :
  (forall f, In f fonts -> basename_of d (Py.lower f) = Py.basename f) ->
  map (basename_of d) (filter p (map Py.lower fonts))
  = map Py.basename (filter (fun f => p (Py.lower f)) fonts).
Proof.
  induction fonts as [|f fonts IH]; intros H; simpl; [reflexivity|].
  assert (forall g, In g fonts -> basename_of d (Py.lower g) = Py.basename g)
    as H' by (intros g Hg; apply H; now right).
  destruct (p (Py.lower f)); simpl; rewrite (IH H'); [|reflexivity].
  now rewrite (H f (or_introl eq_refl)).
Qed.

End Views.

(** X15. When the enumerated fonts have pairwise distinct lower-cased
    paths, the unused font files are printed in the order in which the
    fonts were enumerated (not sorted, unlike the unmapped fonts): they are
    the base names of the fonts whose key was looked up for some script
    and claimed by none. *)
Theorem unused_files_in_glob_order (header names : list string)
  (o : list printed) :
  main header names = Finished o ->
  NoDup (map Py.lower (glob_fonts names)) ->
  exists scripts sc,
    scan_header header = Some scripts /\
    remove_blacklist blacklist scripts = Some sc /\
    let d := make_lower (glob_fonts names) in
    unused_font_files o =
      map Py.basename
          (filter (fun f =>
                     negb (Py.mem (Py.lower f) (claimed_keys (winners sc d)))
                     && Py.mem (Py.lower f) (all_keys sc))
                  (glob_fonts names)).
Proof.
  intros H ND. destruct (main_blocks _ _ _ H) as (scripts & sc & Hs & Hb & B).
  exists scripts, sc. split; [exact Hs|]. split; [exact Hb|].
  cbv zeta in B |- *. destruct B as (_ & _ & ->).
  unfold unclaimed_keys.
  assert (make_lower (glob_fonts names) = map index_pair (glob_fonts names))
    as E by (apply (index_fold_distinct _ [] ND); intros f _ []).
  assert (Dict.keys (make_lower (glob_fonts names))
          = map Py.lower (glob_fonts names)) as K.
  { rewrite E. unfold Dict.keys. rewrite map_map. reflexivity. }
  rewrite K.
  apply (map_filter_keys _
           (fun k => negb (Py.mem k (claimed_keys (winners sc _)))
                     && Py.mem k (all_keys sc))).
  intros f Hf. unfold basename_of.
  rewrite (In_get (Py.lower f) (Py.basename f) _
             (make_lower_NoDup (glob_fonts names))); [reflexivity|].
  rewrite E. apply (in_map index_pair) in Hf. exact Hf.
Qed.

Lemma unused_files_in_glob_order_witness :
  main sample_header sample_names = Finished sample_output /\
  NoDup (map Py.lower (glob_fonts sample_names)) /\
  exists l, unused_font_files sample_output = map Py.basename l.
Proof.
  assert (NoDup (map Py.lower (glob_fonts sample_names))) as ND.
  { vm_compute. repeat (constructor; [simpl; intuition discriminate|]).
    constructor. }
  split; [vm_compute; reflexivity|]. split; [exact ND|].
  destruct (unused_files_in_glob_order sample_header sample_names
              sample_output sample_run ND) as (scripts & sc & _ & _ & E).
  cbv zeta in E. eexists. exact E.
Defined.

(** X16. When the header defines no script twice, a run that finishes
    prints a [case] line for each extracted name that is not blacklisted,
    in the order of the header, and none for a blacklisted name. *)
Theorem blacklisted_never_printed (header names scripts : list string)
  (o : list printed) :
  scan_header header = Some scripts ->
  NoDup scripts ->
  main header names = Finished o ->
  exists cases comments,
    o = cases ++ comments /\
    map case_id cases
      = map Some (filter (fun s => negb (Py.mem s blacklist)) scripts) /\
    Forall (fun p => case_id p = None) comments /\
    (forall p us, In p o -> In us blacklist -> case_id p <> Some us).
Proof.
  intros Hs ND H.
  destruct (main_Finished _ _ _ H) as (scripts' & sc & Hs' & Hb & E).
  rewrite Hs in Hs'. injection Hs' as <-.
  pose proof (remove_blacklist_filter _ _ _ ND Hb) as F.
  cbv zeta in E.
  set (d := make_lower (glob_fonts names)) in *.
  set (comments :=
         map (fun k => UnmappedFont (basename_of d k)) (unmapped_keys sc d)
         ++ map (fun k => UnusedFontFile (basename_of d k))
                (unclaimed_keys sc d)) in *.
  assert (Forall (fun p => case_id p = None) comments) as C.
  { apply Forall_app. split; apply Forall_forall; intros p Hp;
      apply in_map_iff in Hp; destruct Hp as (k & <- & _); reflexivity. }
  exists (case_lines sc (winners sc d)), comments.
  split; [exact E|]. split; [now rewrite case_lines_ids, <- F|].
  split; [exact C|].
  intros p us Hp Hus Hid. rewrite E in Hp. apply in_app_or in Hp.
  destruct Hp as [Hp|Hp].
  - apply (in_map case_id) in Hp. rewrite case_lines_ids, Hid in Hp.
    apply in_map_iff in Hp. destruct Hp as (s & [= ->] & Hin).
    rewrite F in Hin. apply filter_In in Hin. destruct Hin as [_ Hin].
    apply mem_In in Hus. rewrite Hus in Hin. discriminate.
  - rewrite Forall_forall in C. rewrite (C p Hp) in Hid. discriminate.
Qed.

Lemma blacklisted_never_printed_witness :
  scan_header sample_header = Some sample_scripts /\
  NoDup sample_scripts /\
  main sample_header sample_names = Finished sample_output /\
  forall p us, In p sample_output -> In us blacklist ->
               case_id p <> Some us.
Proof.
  assert (NoDup sample_scripts) as ND.
  { vm_compute. repeat (constructor; [simpl; intuition discriminate|]).
    constructor. }
  split; [vm_compute; reflexivity|]. split; [exact ND|].
  split; [vm_compute; reflexivity|].
  destruct (blacklisted_never_printed sample_header sample_names
              sample_scripts sample_output sample_scan ND sample_run)
    as (cases & comments & _ & _ & _ & H).
  exact H.
Defined.
